(** * loadsensor: the Univa Grid Engine load sensor protocol engine

    A shallow embedding of package [loadsensor] ([Sensor], [Context],
    [Create], [Context.Run]) and the properties of its protocol loop.

    Modelling choices.
    - A Go [string] / [[]byte] is a Rocq [string] (a sequence of 8-bit
      characters); [string(line) == "quit"] is equality of such strings.
    - A Go [error] is represented by the text its [Error()] method gives,
      which is all that [Run] uses of it (through the verb [%s]).
    - A value of type [func() (string, error)] is either [nil] or a closure.
      A closure may read and change anything outside the engine; that
      outside is the type [W], and a closure is a function from [W] to its
      two results and the new [W]. Closures are taken to return, and to
      leave the engine's own streams and the sensor array alone.
    - A slice [[]Sensor] is a header (array, offset, length) into a store of
      arrays, so that two headers into one array alias.
    - [os.Stdout] and [os.Stderr] are the sequences of writes made to them,
      one element per [fmt] call; the bytes seen by a reader are their
      concatenation.
    - [os.Stdin] behind the [bufio.Reader] is the sequence of results of the
      successive [ReadLine] calls. When the sequence is used up [Run] is
      left blocked in [ReadLine]: [Run] itself never returns. *)

From Stdlib Require Import ZArith Ascii.
From stdpp Require Import base option list strings gmap.

(** ** Data model *)

(** An [error], by its message. *)
Definition error : Type := string.

(** [errors.New] *)
Definition errors_New (text : string) : error := text.

(** The line feed that ends every line written. *)
Definition LF : string := String "010"%char "".

(** The writes that put each of the given texts on a line of its own. *)
Definition written (ls : list string) : list string :=
  (fun l => l +:+ LF) <$> ls.

(** The bytes a reader of a stream sees: the writes end to end. *)
Definition bytes (ws : list string) : string :=
  foldr String.append "" ws.

(** The lines of a sequence of bytes: what stands before each line feed,
    and what follows the last one if anything does. *)
Fixpoint split_lines (s : string) : list string :=
  match s with
  | EmptyString => []
  | String c s' =>
    if decide (c = "010"%char) then "" :: split_lines s'
    else
      match split_lines s' with
      | [] => [String c ""]
      | l :: ls => String c l :: ls
      end
  end.

(** No line feed occurs in the string. *)
Fixpoint newline_free (s : string) : Prop :=
  match s with
  | EmptyString => True
  | String c s' => c <> "010"%char /\ newline_free s'
  end.

(** Whether a colon occurs in the string. *)
Fixpoint has_colon (s : string) : bool :=
  match s with
  | EmptyString => false
  | String c s' => if decide (c = ":"%char) then true else has_colon s'
  end.

(** Addresses of backing arrays. *)
Abbreviation loc := positive (only parsing).

(** A slice header: backing array, index of the first element, length. *)
Record slice : Type := Slice {
  base : loc;
  off : nat;
  len : nat
}.

(** Which of the three functions of a sensor. *)
Inductive callback_kind : Type :=
  | HostName
  | ResourceName
  | Measurement.

Section Loadsensor.

Context {W : Type}.

(** A non-nil [func() (string, error)]. *)
Definition callback : Type := W -> (string * option error) * W.

(** [type Sensor struct]: each field is a function value, [None] for [nil]. *)
Record Sensor : Type := mkSensor {
  HostNameFunction : option callback;
  ResourceNameFunction : option callback;
  MeasurementFunction : option callback
}.

(** The store of backing arrays of [[]Sensor] slices. *)
Local Abbreviation heap := (gmap loc (list Sensor)) (only parsing).

(** The elements [s[0]], ..., [s[len(s)-1]] as the store has them now. *)
Definition slice_elems (h : heap) (s : slice) : list Sensor :=
  take (len s) (drop (off s) (default [] (h !! base s))).

(** [s[i] = x]. Out of range Go panics: no store is returned. *)
Definition slice_store (h : heap) (s : slice) (i : nat) (x : Sensor)
  : option heap :=
  if decide (i < len s)
  then Some (alter (fun a => <[off s + i := x]> a) (base s) h)
  else None.

(** [type Context struct { sensors []Sensor }] *)
Record Context : Type := mkContext {
  sensors : slice
}.

(** ** Create *)

(** The three [nil] tests made on one element. *)
Definition check_sensor (s : Sensor) : option error :=
  match HostNameFunction s with
  | None => Some (errors_New "HostNameFunction is not set")
  | Some _ =>
    match ResourceNameFunction s with
    | None => Some (errors_New "ResourceNameFunction is not set")
    | Some _ =>
      match MeasurementFunction s with
      | None => Some (errors_New "MeasurementFunction is not set")
      | Some _ => None
      end
    end
  end.

(** [for i := range s { ... return nil, errors.New(...) ... }]: the error
    of the first element that fails a test, if any. *)
Fixpoint check_sensors (ss : list Sensor) : option error :=
  match ss with
  | [] => None
  | s :: ss' =>
    match check_sensor s with
    | Some e => Some e
    | None => check_sensors ss'
    end
  end.

(** [func Create(s []Sensor)], returning a pointer to a context and an
    error, one of them [nil]. The store is read and not written; the
    context holds the header [s] it was given. *)
Definition Create (h : heap) (s : slice) : option Context * option error :=
  match check_sensors (slice_elems h s) with
  | Some e => (None, Some e)
  | None => (Some {| sensors := s |}, None)
  end.

(** ** The process around Run *)

(** The writes made so far to the two output streams, and the outside
    world of the closures. *)
Record process : Type := mkProcess {
  stdout : list string;
  stderr : list string;
  env : W
}.

(** A statement either completes, or panics (a call of a [nil] function
    value); either way it leaves a process state behind. *)
Inductive flow (A : Type) : Type :=
  | Normal (a : A) (p : process)
  | Panic (p : process).
Global Arguments Normal {A} a p.
Global Arguments Panic {A} p.

Definition M (A : Type) : Type := process -> flow A.

Global Instance M_ret : MRet M := fun A a p => Normal a p.

Global Instance M_bind : MBind M := fun A B k m p =>
  match m p with
  | Normal a p' => k a p'
  | Panic p' => Panic p'
  end.

(** [fmt.Println(s)]: one write of [s] and a line feed to [os.Stdout]. *)
Definition Println (s : string) : M unit := fun p =>
  Normal tt {| stdout := stdout p ++ [s +:+ LF];
               stderr := stderr p;
               env := env p |}.

(** [fmt.Printf("%s:%s:%s\n", a, b, c)] *)
Definition Printf_line (a b c : string) : M unit := fun p =>
  Normal tt {| stdout := stdout p ++ [a +:+ ":" +:+ b +:+ ":" +:+ c +:+ LF];
               stderr := stderr p;
               env := env p |}.

(** [fmt.Fprintf(os.Stderr, prefix + "%s\n", e)] *)
Definition Fprintf_Stderr (prefix : string) (e : error) : M unit := fun p =>
  Normal tt {| stdout := stdout p;
               stderr := stderr p ++ [prefix +:+ e +:+ LF];
               env := env p |}.

(** [f()] for a function value [f]. *)
Definition call (f : option callback) : M (string * option error) := fun p =>
  match f with
  | None => Panic p
  | Some g =>
    let '(r, w) := g (env p) in
    Normal r {| stdout := stdout p; stderr := stderr p; env := w |}
  end.

(** ** Run *)

(** The body of [for _, sensor := range ctx.sensors]; every [continue]
    ends it. *)
Definition report (sensor : Sensor) : M unit :=
  '(host, errHost) ← call (HostNameFunction sensor);
  match errHost with
  | Some e => Fprintf_Stderr "error during hostname function call: " e
  | None =>
    '(resource, errResource) ← call (ResourceNameFunction sensor);
    match errResource with
    | Some e => Fprintf_Stderr "error during resource name function call: " e
    | None =>
      '(measurement, errMeasurement) ← call (MeasurementFunction sensor);
      match errMeasurement with
      | Some e => Fprintf_Stderr "error during measurement function call: " e
      | None => Printf_line host resource measurement
      end
    end
  end.

(** [for _, sensor := range ctx.sensors { ... }] *)
Fixpoint range_sensors (ss : list Sensor) : M unit :=
  match ss with
  | [] => mret tt
  | sensor :: ss' => report sensor ≫= fun _ => range_sensors ss'
  end.

(** The statements of one turn of the protocol loop after the two exits:
    [begin], the sensors, [end]. *)
Definition cycle (ss : list Sensor) : M unit :=
  Println "begin" ≫= fun _ =>
  range_sensors ss ≫= fun _ =>
  Println "end".

(** What [stdin.ReadLine()] returns. *)
Record ReadLine_result : Type := mkReadLine {
  line : string;
  isPrefix : bool;
  err : option error
}.

(** Where the process is once the given input is used up. *)
Inductive status : Type :=
  | Reading               (* blocked in [ReadLine], inside the loop *)
  | Exited (code : Z)     (* [os.Exit(code)] *)
  | Panicked.             (* a [nil] function value was called *)

(** [func (ctx Context) Run()] on the results that the successive
    [ReadLine] calls give. The sensors are read from the store [h], which
    nothing changes while [Run] runs. *)
Fixpoint Run (h : heap) (ctx : Context) (stdin : list ReadLine_result)
    (p : process) : process * status :=
  match stdin with
  | [] => (p, Reading)
  | r :: stdin' =>
    match err r with
    | Some _ => (p, Exited 1)
    | None =>
      if decide (line r = "quit") then (p, Exited 0)
      else
        match cycle (slice_elems h (sensors ctx)) p with
        | Normal _ p' => Run h ctx stdin' p'
        | Panic p' => (p', Panicked)
        end
    end
  end.

End Loadsensor.

Arguments callback : clear implicits.
Arguments Sensor : clear implicits.

Abbreviation heap W := (gmap loc (list (Sensor W))) (only parsing).
Arguments process : clear implicits.
Arguments M : clear implicits.

(** ** What one pass over the sensors amounts to

    The reporting pass as the protocol describes it, on sensors whose three
    functions are all set; [report] and [range_sensors] are compared with
    it below. *)

Section Protocol.

Context {W : Type}.

(** A fully specified sensor: its three closures. *)
Record Producer : Type := mkProducer {
  hostIdentity : callback W;
  resourceIdentity : callback W;
  measurementValue : callback W
}.

Definition Sensor_of (pr : Producer) : Sensor W :=
  {| HostNameFunction := Some (hostIdentity pr);
     ResourceNameFunction := Some (resourceIdentity pr);
     MeasurementFunction := Some (measurementValue pr) |}.

(** Some function of the sensor is [nil]. *)
Definition missing_callback (s : Sensor W) : Prop :=
  HostNameFunction s = None \/
  ResourceNameFunction s = None \/
  MeasurementFunction s = None.

(** All three functions of the sensor are set. *)
Definition specified (s : Sensor W) : Prop :=
  is_Some (HostNameFunction s) /\
  is_Some (ResourceNameFunction s) /\
  is_Some (MeasurementFunction s).

(** [ctx] is what [Create] returned, in store [h], for a slice holding the
    producers [ps]. *)
Definition engine_of (h : heap W) (ps : list Producer) (ctx : Context)
  : Prop :=
  exists s, Create h s = (Some ctx, None) /\
            slice_elems h s = Sensor_of <$> ps.

(** What a producer contributes in one cycle: the three values of its
    measurement line, or the call that failed and its error. *)
Inductive outcome : Type :=
  | Reported (host resource measurement : string)
  | Failed (k : callback_kind) (e : error).

(** The three calls in the order host, resource, measurement, stopping at
    the first failure. *)
Definition produce (pr : Producer) (w : W) : outcome * W :=
  let '((host, errHost), w1) := hostIdentity pr w in
  match errHost with
  | Some e => (Failed HostName e, w1)
  | None =>
    let '((resource, errResource), w2) := resourceIdentity pr w1 in
    match errResource with
    | Some e => (Failed ResourceName e, w2)
    | None =>
      let '((measurement, errMeasurement), w3) := measurementValue pr w2 in
      match errMeasurement with
      | Some e => (Failed Measurement e, w3)
      | None => (Reported host resource measurement, w3)
      end
    end
  end.

(** The producers one after the other, in the order of the list. *)
Fixpoint pass (ps : list Producer) (w : W) : list outcome * W :=
  match ps with
  | [] => ([], w)
  | pr :: ps' =>
    let '(o, w1) := produce pr w in
    let '(os, w2) := pass ps' w1 in
    (o :: os, w2)
  end.

(** The diagnostic written for a failed call. *)
Definition diagnostic (k : callback_kind) (e : error) : string :=
  match k with
  | HostName => "error during hostname function call: "
  | ResourceName => "error during resource name function call: "
  | Measurement => "error during measurement function call: "
  end +:+ e +:+ LF.

(** The measurement lines of the producers that succeeded. *)
Definition out_lines (os : list outcome) : list string :=
  omap (fun o => match o with
                 | Reported a b c =>
                   Some (a +:+ ":" +:+ b +:+ ":" +:+ c +:+ LF)
                 | Failed _ _ => None
                 end) os.

(** The diagnostics of the producers that failed. *)
Definition err_lines (os : list outcome) : list string :=
  omap (fun o => match o with
                 | Reported _ _ _ => None
                 | Failed k e => Some (diagnostic k e)
                 end) os.

(** A process after the writes of the given outcomes. *)
Definition emit (os : list outcome) (w : W) (p : process W) : process W :=
  {| stdout := stdout p ++ out_lines os;
     stderr := stderr p ++ err_lines os;
     env := w |}.

(** One framed block: [begin], the measurement lines, [end]. *)
Definition block (os : list outcome) : list string :=
  ("begin" +:+ LF) :: out_lines os ++ ["end" +:+ LF].

(** A process after one whole cycle over the producers [ps]. *)
Definition one_cycle (ps : list Producer) (p : process W) : process W :=
  let '(os, w) := pass ps (env p) in
  {| stdout := stdout p ++ block os;
     stderr := stderr p ++ err_lines os;
     env := w |}.

(** The measurement lines of the producers that succeeded, without the
    line feeds. *)
Definition texts (os : list outcome) : list string :=
  omap (fun o => match o with
                 | Reported a b c => Some (a +:+ ":" +:+ b +:+ ":" +:+ c)
                 | Failed _ _ => None
                 end) os.

(** The lines of one block. *)
Definition text_block (os : list outcome) : list string :=
  "begin" :: texts os ++ ["end"].

(** The producer never returns a value with a line feed in it. *)
Definition tidy (pr : Producer) : Prop :=
  forall w, newline_free (hostIdentity pr w).1.1 /\
            newline_free (resourceIdentity pr w).1.1 /\
            newline_free (measurementValue pr w).1.1.

(** The outcomes of [n] successive passes started in world [w]. *)
Fixpoint passes (ps : list Producer) (n : nat) (w : W)
  : list (list outcome) :=
  match n with
  | O => []
  | S n' => let '(os, w') := pass ps w in os :: passes ps n' w'
  end.

(** The blocks of [n] successive cycles started in world [w]. *)
Definition blocks (ps : list Producer) (n : nat) (w : W)
  : list (list string) :=
  block <$> passes ps n w.

(** A read result that makes the loop go round: no error, and a line
    other than the quit command. *)
Definition is_trigger (r : ReadLine_result) : Prop :=
  err r = None /\ line r <> "quit".

(** A line [host:resource:measurement]. *)
Definition measurement_line (l : string) : Prop :=
  exists a b c, l = a +:+ ":" +:+ b +:+ ":" +:+ c +:+ LF.

(** How many of the writes [l] are exactly [x]. *)
Definition occurrences (x : string) (l : list string) : nat :=
  length (filter (fun y => y = x) l).

(** The writes of one cycle: one [begin], measurement lines, one [end]. *)
Definition framed (b : list string) : Prop :=
  (exists ls, b = ("begin" +:+ LF) :: ls ++ ["end" +:+ LF] /\
              Forall measurement_line ls) /\
  occurrences ("begin" +:+ LF) b = 1 /\
  occurrences ("end" +:+ LF) b = 1.

(** A closure that never returns an error. *)
Definition succeeds (f : callback W) : Prop :=
  forall w, (f w).1.2 = None.

Definition always_succeeds (pr : Producer) : Prop :=
  succeeds (hostIdentity pr) /\
  succeeds (resourceIdentity pr) /\
  succeeds (measurementValue pr).

(** The producer, called in world [w], fails: [k] is the call that returns
    the error [e], the calls before it having succeeded, and [w'] is the
    world that call leaves. *)
Inductive fails (pr : Producer) (w : W) : callback_kind -> error -> W -> Prop :=
  | fails_host v e w1 :
      hostIdentity pr w = ((v, Some e), w1) ->
      fails pr w HostName e w1
  | fails_resource a w1 v e w2 :
      hostIdentity pr w = ((a, None), w1) ->
      resourceIdentity pr w1 = ((v, Some e), w2) ->
      fails pr w ResourceName e w2
  | fails_measurement a w1 b w2 v e w3 :
      hostIdentity pr w = ((a, None), w1) ->
      resourceIdentity pr w1 = ((b, None), w2) ->
      measurementValue pr w2 = ((v, Some e), w3) ->
      fails pr w Measurement e w3.

(** [l] is the measurement line of producer [pr] for the values it
    returns in some world. *)
Definition line_of (pr : Producer) (l : string) : Prop :=
  exists w a b c w',
    produce pr w = (Reported a b c, w') /\
    l = a +:+ ":" +:+ b +:+ ":" +:+ c +:+ LF.

(** Two read results that are the same, or are both triggers. *)
Definition same_but_trigger_content (r1 r2 : ReadLine_result) : Prop :=
  r1 = r2 \/ (is_trigger r1 /\ is_trigger r2).

(** The input reaches the quit command after triggers only. *)
Definition stops_at_quit (stdin : list ReadLine_result) : Prop :=
  exists pre r post,
    stdin = pre ++ r :: post /\ Forall is_trigger pre /\
    err r = None /\ line r = "quit".

(** The input reaches a read error (the end of the stream is one) after
    triggers only. *)
Definition stops_at_error (stdin : list ReadLine_result) : Prop :=
  exists pre r post,
    stdin = pre ++ r :: post /\ Forall is_trigger pre /\ is_Some (err r).



End Protocol.

Arguments Producer : clear implicits.

(** ** A small installation

    Three producers with fixed answers, the second of which cannot take
    its measurement, in a world with nothing to observe. *)

Definition always (v : string) : callback unit :=
  fun w => ((v, None), w).

Definition failing (e : error) : callback unit :=
  fun w => (("", Some e), w).

Definition producerA : Producer unit :=
  mkProducer (always "hostA") (always "mem") (always "42").

Definition producerB : Producer unit :=
  mkProducer (always "hostB") (always "cpu") (failing "no data").

Definition producerC : Producer unit :=
  mkProducer (always "hostC") (always "swap") (always "7").

Definition example_producers : list (Producer unit) :=
  [producerA; producerB; producerC].

Definition healthy_producers : list (Producer unit) :=
  [producerA; producerC].

(** A store with an array of each. *)
Definition example_heap : heap unit :=
  <[ 2%positive := Sensor_of <$> healthy_producers ]>
    {[ 1%positive := Sensor_of <$> example_producers ]}.

Definition example_slice : slice :=
  {| base := 1%positive; off := 0; len := 3 |}.

Definition example_ctx : Context := {| sensors := example_slice |}.

Definition healthy_slice : slice :=
  {| base := 2%positive; off := 0; len := 2 |}.

Definition healthy_ctx : Context := {| sensors := healthy_slice |}.

Definition start : process unit :=
  {| stdout := []; stderr := []; env := tt |}.

(** A line sent by the scheduler, and the end of its stream. *)
Definition poll (l : string) : ReadLine_result :=
  {| line := l; isPrefix := false; err := None |}.

Definition eof : ReadLine_result :=
  {| line := ""; isPrefix := false; err := Some "EOF" |}.

(** The store after the caller's [sensors[0] = sensors[2]]. *)
Definition mutated_heap : heap unit :=
  <[ 2%positive := Sensor_of <$> healthy_producers ]>
    {[ 1%positive := Sensor_of <$> [producerC; producerB; producerC] ]}.

(** A slice one of whose sensors lacks its resource function. *)
Definition unset_sensor : Sensor unit :=
  {| HostNameFunction := Some (always "hostD");
     ResourceNameFunction := None;
     MeasurementFunction := Some (always "1") |}.

Definition broken_heap : heap unit :=
  {[ 1%positive := [Sensor_of producerA; unset_sensor; Sensor_of producerC] ]}.

(** ** Arch, LocalHostname and the example program

    The two helpers of the package are closures over the machine the
    process runs on. Of that machine the model keeps the environment
    variables of the process, the commands the process has asked to be
    run, in order (a command may fail to start), and the rest ([X]: files,
    programs, the kernel), which only the three library calls below see. [strings.TrimSpace], the running of a
    command ([exec.Command(name, args...).Output()], which gives the
    standard output of the command and an error) and [os.Hostname] are
    taken as given. *)

Section Machine.

Context {X : Type}.

Record machine : Type := mkMachine {
  environ : gmap string string;
  spawned : list (string * list string);
  outside : X
}.

Variable TrimSpace : string -> string.

Variable command_run :
  string -> list string -> gmap string string -> X ->
  (string * option error) * X.

Variable kernel_hostname : X -> string * option error.

(** [os.Getenv(key)]: empty if the variable is not set. *)
Definition os_Getenv (key : string) (m : machine) : string :=
  default "" (environ m !! key).

(** [exec.Command(name, args...).Output()] *)
Definition exec_Output (name : string) (args : list string)
  : callback machine :=
  fun m =>
    let '(r, x) := command_run name args (environ m) (outside m) in
    (r, {| environ := environ m;
           spawned := spawned m ++ [(name, args)];
           outside := x |}).

(** [func Arch() (string, error)] *)
Definition Arch : callback machine := fun m =>
  let path := os_Getenv "SGE_ROOT" m +:+ "/util/arch" in
  let '((arch, err), m1) := exec_Output path [] m in
  ((TrimSpace arch, err), m1).

(** [func LocalHostname() (string, error)] *)
Definition LocalHostname : callback machine := fun m =>
  let '((arch, err), m1) := Arch m in
  match err with
  | Some e => (("", Some e), m1)
  | None =>
    let path :=
      os_Getenv "SGE_ROOT" m1 +:+ "/utilbin/" +:+ arch +:+ "/gethostname" in
    let '((hostname, errExec), m2) := exec_Output path ["-name"] m1 in
    ((TrimSpace hostname, errExec), m2)
  end.

(** The machine after [n] calls of the closure [f] in a row. *)
Definition after_calls (f : callback machine) (n : nat) (m : machine)
  : machine :=
  Nat.iter n (fun m' => (f m').2) m.

(** The one sensor of [examples/simple]: the host name of the grid
    engine, the resource [name], the host name of the kernel. *)
Definition simple_producer : Producer machine :=
  {| hostIdentity := LocalHostname;
     resourceIdentity := fun m => (("name", None), m);
     measurementValue := fun m => (kernel_hostname (outside m), m) |}.

Definition simple_sensors : slice :=
  {| base := 1%positive; off := 0; len := 1 |}.

(** The store once [main] has built its slice. *)
Definition simple_heap : heap machine :=
  {[ 1%positive := [Sensor_of simple_producer] ]}.

(** [func main()] of [examples/simple], started on machine [m] with
    nothing written yet. *)
Definition main (stdin : list ReadLine_result) (m : machine)
  : process machine * status :=
  let p := {| stdout := []; stderr := []; env := m |} in
  match Create simple_heap simple_sensors with
  | (_, Some e) =>
    match Println e p with
    | Normal _ p' | Panic p' => (p', Exited 1)
    end
  | (Some ctx, None) => Run simple_heap ctx stdin p
  | (None, None) => (p, Panicked)
  end.

End Machine.

Arguments machine : clear implicits.

Section Reach.

Context {W : Type}.

(** In world [w] the loop body, run on the sensor, comes to call a
    function that is [nil]; [w'] is the world at that point, after the
    calls that went before. *)
Inductive hits_nil (s : Sensor W) (w : W) : W -> Prop :=
  | hits_nil_host :
      HostNameFunction s = None ->
      hits_nil s w w
  | hits_nil_resource f a w1 :
      HostNameFunction s = Some f -> f w = ((a, None), w1) ->
      ResourceNameFunction s = None ->
      hits_nil s w w1
  | hits_nil_measurement f a w1 g b w2 :
      HostNameFunction s = Some f -> f w = ((a, None), w1) ->
      ResourceNameFunction s = Some g -> g w1 = ((b, None), w2) ->
      MeasurementFunction s = None ->
      hits_nil s w w2.

(** A write to the error stream that is a diagnostic of a failed call. *)
Definition is_diagnostic (d : string) : Prop :=
  exists k e, d = diagnostic k e.

(** Nothing written is taken back: both streams of [p'] start with what
    [p] has. *)
Definition grows (p p' : process W) : Prop :=
  stdout p `prefix_of` stdout p' /\ stderr p `prefix_of` stderr p'.

End Reach.

(** ** A small machine

    A grid engine installed under [/opt/sge] on a host of architecture
    [lx-amd64]; any other program is missing. *)

(** On text with no blank but line feeds at its end, what
    [strings.TrimSpace] gives: the text before the first line feed. *)
Fixpoint demo_trim (s : string) : string :=
  match s with
  | EmptyString => ""
  | String c s' =>
    if decide (c = "010"%char) then "" else String c (demo_trim s')
  end.

Definition demo_run (name : string) (args : list string)
    (env : gmap string string) (x : unit) : (string * option error) * unit :=
  if decide (name = "/opt/sge/util/arch")
  then (("lx-amd64" +:+ LF, None), x)
  else if decide (name = "/opt/sge/utilbin/lx-amd64/gethostname")
  then (("node1" +:+ LF, None), x)
  else (("", Some "no such file or directory"), x).

Definition demo_kernel (x : unit) : string * option error :=
  ("node1.local", None).

Definition demo_machine : machine unit :=
  {| environ := {[ "SGE_ROOT" := "/opt/sge" ]}; spawned := []; outside := tt |}.

(** The same machine with [SGE_ROOT] not set. *)
Definition bare_machine : machine unit :=
  {| environ := ∅; spawned := []; outside := tt |}.

(** A sensor whose host function is not set, and the store after the
    caller's [sensors[1] = Sensor{}]. *)
Definition empty_sensor : Sensor unit :=
  {| HostNameFunction := None;
     ResourceNameFunction := None;
     MeasurementFunction := None |}.

Definition unset_heap : heap unit :=
  <[ 2%positive := Sensor_of <$> healthy_producers ]>
    {[ 1%positive := [Sensor_of producerA; empty_sensor; Sensor_of producerC] ]}.

(** A sensor whose measurement function is not set and whose resource
    function fails. *)
Definition half_sensor : Sensor unit :=
  {| HostNameFunction := Some (always "hostE");
     ResourceNameFunction := Some (failing "unknown");
     MeasurementFunction := None |}.

(** ** The reader of the input

    [bufio.NewReader(os.Stdin)] makes a reader with a buffer of
    [defaultBufSize] bytes. Its method [ReadLine] is taken as the Go
    library documents it: it returns the bytes up to the next line feed,
    without the line feed and without a carriage return just before it;
    if no line feed is among the next bytes that fill the buffer, it
    returns those bytes as the beginning of the line, with [isPrefix]
    set, and the rest of the line comes from the following calls (a
    carriage return at the very end of the buffer is left for the next
    call); at the end of the stream it returns what is left, if there is
    anything, and the error [EOF] otherwise. The functions below give the
    results of the successive calls on a stream that delivers the given
    bytes and then ends. *)

Definition defaultBufSize : nat := 4096.

(** The carriage return. *)
Definition CR : ascii := "013"%char.

(** [n] times the byte [c]. *)
Fixpoint repeat_byte (n : nat) (c : ascii) : string :=
  match n with
  | O => ""
  | S n' => String c (repeat_byte n' c)
  end.

(** The first [n] bytes, and the bytes after them. *)
Fixpoint take_bytes (n : nat) (s : string) : string :=
  match n, s with
  | S n', String c s' => String c (take_bytes n' s')
  | _, _ => ""
  end.

Fixpoint drop_bytes (n : nat) (s : string) : string :=
  match n, s with
  | S n', String c s' => drop_bytes n' s'
  | _, _ => s
  end.

(** If a line feed is among the first [n] bytes: the bytes before the
    first line feed, and the bytes after it. *)
Fixpoint cut_line (n : nat) (s : string) : option (string * string) :=
  match n, s with
  | S n', String c s' =>
    if decide (c = "010"%char) then Some ("", s')
    else
      match cut_line n' s' with
      | Some (l, rest) => Some (String c l, rest)
      | None => None
      end
  | _, _ => None
  end.

(** Whether the last byte is a carriage return, and the bytes without
    such a last byte. *)
Fixpoint last_is_CR (s : string) : bool :=
  match s with
  | EmptyString => false
  | String c EmptyString => bool_decide (c = CR)
  | String c s' => last_is_CR s'
  end.

Fixpoint strip_CR (s : string) : string :=
  match s with
  | EmptyString => ""
  | String c EmptyString => if decide (c = CR) then "" else String c ""
  | String c s' => String c (strip_CR s')
  end.

(** One call of [ReadLine] with a buffer of [size] bytes on a stream that
    still has the bytes [unread] to deliver: what the call returns, and
    the bytes still to be read after it. *)
Definition ReadLine (size : nat) (unread : string)
  : ReadLine_result * string :=
  match unread with
  | EmptyString => ({| line := ""; isPrefix := false; err := Some "EOF" |}, "")
  | String _ _ =>
    match cut_line size unread with
    | Some (l, rest) =>
      ({| line := strip_CR l; isPrefix := false; err := None |}, rest)
    | None =>
      if decide (size <= String.length unread) then
        let fragment := take_bytes size unread in
        if last_is_CR fragment
        then ({| line := strip_CR fragment; isPrefix := true; err := None |},
              String CR (drop_bytes size unread))
        else ({| line := fragment; isPrefix := true; err := None |},
              drop_bytes size unread)
      else ({| line := unread; isPrefix := false; err := None |}, "")
    end
  end.

(** The results of the successive calls, up to and with the first error;
    at most [fuel] calls. *)
Fixpoint ReadLines (fuel : nat) (size : nat) (unread : string)
  : list ReadLine_result :=
  match fuel with
  | O => []
  | S fuel' =>
    let '(r, rest) := ReadLine size unread in
    match err r with
    | Some _ => [r]
    | None => r :: ReadLines fuel' size rest
    end
  end.

(** What [Run] reads from a stream of the given bytes: every call that
    returns no error uses up a byte (for a buffer of two bytes or more; a
    reader has sixteen at least), so that one call more than there are
    bytes reaches the end of the stream. *)
Definition stdin_results (size : nat) (stream : string)
  : list ReadLine_result :=
  ReadLines (S (String.length stream)) size stream.

(** What [ReadLine] returns for a line that fits the buffer. *)
Definition line_result (l : string) : ReadLine_result :=
  {| line := strip_CR l; isPrefix := false; err := None |}.

(** A line that fits, with its line feed, a buffer of [size] bytes. *)
Definition short_line (size : nat) (l : string) : Prop :=
  newline_free l /\ String.length l < size.

(** Two lines that fit the buffer and are the same, or are both other
    than the quit command. *)
Definition same_but_short_trigger_content (size : nat) (l1 l2 : string)
  : Prop :=
  short_line size l1 /\ short_line size l2 /\
  (l1 = l2 \/ (strip_CR l1 <> "quit" /\ strip_CR l2 <> "quit")).

(** The context made from the slice [s] of the small installation is an
    engine; the given read results are triggers. *)
Ltac engine_of_example s :=
  exists s; split; vm_compute; reflexivity.

Ltac all_triggers :=
  repeat constructor; discriminate.

(** ** Properties *)

Section Properties.

Context {W : Type}.

Implicit Types (h : heap W) (s : slice) (ctx : Context).
Implicit Types (pr : Producer W) (ps : list (Producer W)).
Implicit Types (p : process W) (w : W) (os : list outcome).

(** *** Create *)

Lemma check_sensor_None (s : Sensor W) :
  check_sensor s = None <-> specified s.
Proof.
  unfold check_sensor, specified.
  destruct (HostNameFunction s), (ResourceNameFunction s),
    (MeasurementFunction s); split; intros H;
    try discriminate; try reflexivity; eauto;
    destruct H as ([? ?] & [? ?] & [? ?]); discriminate.
Qed.

Lemma check_sensor_Some (s : Sensor W) :
  is_Some (check_sensor s) <-> missing_callback s.
Proof.
  unfold check_sensor, missing_callback.
  destruct (HostNameFunction s), (ResourceNameFunction s),
    (MeasurementFunction s); split; intros H; eauto;
    try (destruct H as [? H]; discriminate H);
    destruct H as [H | [H | H]]; discriminate H.
Qed.

Lemma check_sensors_None (ss : list (Sensor W)) :
  check_sensors ss = None <-> Forall specified ss.
Proof.
  induction ss as [| s ss IH]; simpl.
  - split; [constructor | reflexivity].
  - destruct (check_sensor s) eqn:E.
    + split; [discriminate |].
      intros H. apply Forall_cons in H as [H _].
      apply check_sensor_None in H. congruence.
    + rewrite IH. split.
      * intros H. constructor; [by apply check_sensor_None | done].
      * intros H. by apply Forall_cons in H as [_ H].
Qed.

Lemma check_sensors_Some (ss : list (Sensor W)) :
  is_Some (check_sensors ss) <-> Exists missing_callback ss.
Proof.
  induction ss as [| s ss IH]; simpl.
  - split; [intros [? H]; discriminate H | intros H; inversion H].
  - destruct (check_sensor s) eqn:E.
    + split; [| eauto].
      intros _. apply Exists_cons_hd. apply check_sensor_Some. eauto.
    + rewrite IH. split; [apply Exists_cons_tl |].
      intros H. apply Exists_cons in H as [H | H]; [| done].
      apply check_sensor_Some in H as [? H]. congruence.
Qed.

Lemma specified_Sensor_of pr : specified (Sensor_of pr).
Proof. repeat split; simpl; eauto. Qed.

Lemma specified_producers (ss : list (Sensor W)) :
  Forall specified ss -> exists ps, ss = Sensor_of <$> ps.
Proof.
  induction 1 as [| s ss Hs _ [ps ->]].
  - by exists [].
  - destruct s as [f g m]. destruct Hs as ([f' ?] & [g' ?] & [m' ?]).
    simpl in *. subst. by exists (mkProducer f' g' m' :: ps).
Qed.

Lemma Create_engine h s ctx :
  Create h s = (Some ctx, None) ->
  ctx = {| sensors := s |} /\ exists ps, engine_of h ps ctx.
Proof.
  intros H. pose proof H as H'. unfold Create in H.
  destruct (check_sensors (slice_elems h s)) eqn:E; [discriminate |].
  injection H as <-. split; [done |].
  apply check_sensors_None, specified_producers in E as [ps E].
  exists ps, s. done.
Qed.

Lemma engine_of_sensors h ps ctx :
  engine_of h ps ctx -> slice_elems h (sensors ctx) = Sensor_of <$> ps.
Proof.
  intros (s & Hc & Hs). apply Create_engine in Hc as [-> _]. done.
Qed.


(** *** One pass over the sensors *)


Lemma out_lines_app os1 os2 :
  out_lines (os1 ++ os2) = out_lines os1 ++ out_lines os2.
Proof. apply omap_app. Qed.

Lemma err_lines_app os1 os2 :
  err_lines (os1 ++ os2) = err_lines os1 ++ err_lines os2.
Proof. apply omap_app. Qed.

Lemma emit_emit os1 os2 w1 w2 p :
  emit os2 w2 (emit os1 w1 p) = emit (os1 ++ os2) w2 p.
Proof.
  unfold emit; simpl. by rewrite out_lines_app, err_lines_app, !app_assoc.
Qed.

Lemma pass_app ps1 ps2 w :
  pass (ps1 ++ ps2) w =
  ((pass ps1 w).1 ++ (pass ps2 (pass ps1 w).2).1,
   (pass ps2 (pass ps1 w).2).2).
Proof.
  revert w. induction ps1 as [| pr ps1 IH]; intros w; simpl.
  - by destruct (pass ps2 w).
  - destruct (produce pr w) as [o w1]. rewrite IH.
    by destruct (pass ps1 w1) as [os1 w2].
Qed.

Lemma pass_length ps w : length (pass ps w).1 = length ps.
Proof.
  revert w. induction ps as [| pr ps IH]; intros w; simpl; [done |].
  destruct (produce pr w) as [o w1]. specialize (IH w1).
  destruct (pass ps w1). simpl in *. by rewrite IH.
Qed.

(** The loop body on a fully specified sensor does what [produce] says. *)
Lemma report_produce pr p :
  report (Sensor_of pr) p =
  Normal tt (emit [(produce pr (env p)).1] (produce pr (env p)).2 p).
Proof.
  unfold report, produce, emit, mbind, M_bind, call; simpl.
  destruct (hostIdentity pr (env p)) as [[host [e |]] w1]; simpl.
  { by rewrite app_nil_r. }
  destruct (resourceIdentity pr w1) as [[resource [e |]] w2]; simpl.
  { by rewrite app_nil_r. }
  destruct (measurementValue pr w2) as [[measurement [e |]] w3]; simpl.
  { by rewrite app_nil_r. }
  unfold Printf_line; simpl. by rewrite app_nil_r.
Qed.

Lemma range_sensors_pass ps p :
  range_sensors (Sensor_of <$> ps) p =
  Normal tt (emit (pass ps (env p)).1 (pass ps (env p)).2 p).
Proof.
  revert p. induction ps as [| pr ps IH]; intros p; simpl.
  - unfold mret, M_ret, emit; simpl. rewrite !app_nil_r. by destruct p.
  - unfold mbind, M_bind. rewrite report_produce, IH; simpl.
    destruct (produce pr (env p)) as [o w1]; simpl.
    destruct (pass ps w1) as [os w2]; simpl.
    by rewrite emit_emit.
Qed.

Lemma cycle_one_cycle ps p :
  cycle (Sensor_of <$> ps) p = Normal tt (one_cycle ps p).
Proof.
  unfold cycle, mbind, M_bind, Println. rewrite range_sensors_pass; simpl.
  unfold one_cycle, block, emit; simpl.
  destruct (pass ps (env p)) as [os w]; simpl.
  f_equal. f_equal. by rewrite <- !app_assoc.
Qed.

(** *** The loop *)

Lemma Run_app h ctx stdin1 stdin2 p :
  Run h ctx (stdin1 ++ stdin2) p =
  match Run h ctx stdin1 p with
  | (p', Reading) => Run h ctx stdin2 p'
  | stopped => stopped
  end.
Proof.
  revert p. induction stdin1 as [| r stdin1 IH]; intros p; simpl; [done |].
  destruct (err r); [done |].
  destruct (decide (line r = "quit")); [done |].
  destruct (cycle _ p); [apply IH | done].
Qed.

Lemma Run_trigger h ps ctx r stdin p :
  engine_of h ps ctx -> is_trigger r ->
  Run h ctx (r :: stdin) p = Run h ctx stdin (one_cycle ps p).
Proof.
  intros He [Hr Hq]. simpl. rewrite Hr.
  destruct (decide (line r = "quit")); [done |].
  by rewrite (engine_of_sensors _ _ _ He), cycle_one_cycle.
Qed.

Lemma Run_triggers h ps ctx stdin p :
  engine_of h ps ctx -> Forall is_trigger stdin ->
  Run h ctx stdin p = (Nat.iter (length stdin) (one_cycle ps) p, Reading).
Proof.
  intros He Ht. revert p.
  induction Ht as [| r stdin Hr _ IH]; intros p; [done |].
  rewrite (Run_trigger _ _ _ _ _ _ He Hr), IH.
  simpl length. by rewrite Nat.iter_succ_r.
Qed.

Lemma one_cycle_iter ps n p :
  stdout (Nat.iter n (one_cycle ps) p) =
    stdout p ++ concat (blocks ps n (env p)) /\
  length (blocks ps n (env p)) = n.
Proof.
  revert p. induction n as [| n IH]; intros p.
  - simpl. by rewrite app_nil_r.
  - rewrite Nat.iter_succ_r. destruct (IH (one_cycle ps p)) as [IH1 IH2].
    rewrite IH1. unfold one_cycle, blocks in *. simpl passes.
    destruct (pass ps (env p)) as [os w]. simpl in *.
    split; [by rewrite <- app_assoc | by f_equal].
Qed.

(** *** Framing *)

Lemma has_colon_app a x : has_colon (a +:+ ":" +:+ x) = true.
Proof.
  induction a as [| c a IH]; [done |].
  change (has_colon (String c (a +:+ ":" +:+ x)) = true).
  simpl. by destruct (decide (c = ":"%char)).
Qed.

Lemma measurement_line_not_marker l :
  measurement_line l -> l <> "begin" +:+ LF /\ l <> "end" +:+ LF.
Proof.
  intros (a & b & c & ->).
  pose proof (has_colon_app a (b +:+ ":" +:+ c +:+ LF)) as H.
  split; intros E; rewrite E in H; discriminate H.
Qed.

Lemma out_lines_measurement os : Forall measurement_line (out_lines os).
Proof.
  induction os as [| [a b c | k e] os IH]; simpl; [constructor | | done].
  constructor; [| done]. by exists a, b, c.
Qed.

Lemma occurrences_absent x (ls : list string) :
  Forall (fun l => l <> x) ls -> occurrences x ls = 0.
Proof.
  unfold occurrences. induction 1 as [| l ls Hl _ IH]; [done |].
  by rewrite filter_cons_False.
Qed.

Lemma occurrences_app x (l1 l2 : list string) :
  occurrences x (l1 ++ l2) = occurrences x l1 + occurrences x l2.
Proof. unfold occurrences. by rewrite filter_app, length_app. Qed.

Lemma block_framed os : framed (block os).
Proof.
  pose proof (out_lines_measurement os) as Hm.
  assert (Forall (fun l => l <> "begin" +:+ LF) (out_lines os)) as Hb.
  { eapply Forall_impl; [exact Hm |].
    intros l Hl. by apply measurement_line_not_marker. }
  assert (Forall (fun l => l <> "end" +:+ LF) (out_lines os)) as He.
  { eapply Forall_impl; [exact Hm |].
    intros l Hl. by apply measurement_line_not_marker. }
  unfold framed, block. split; [by exists (out_lines os) |].
  change (?x :: ?l ++ ?r) with ([x] ++ l ++ r).
  rewrite !occurrences_app, (occurrences_absent _ _ Hb),
    (occurrences_absent _ _ He).
  done.
Qed.

Lemma blocks_framed ps n w : Forall framed (blocks ps n w).
Proof.
  unfold blocks. apply Forall_fmap, Forall_true. intros os.
  apply block_framed.
Qed.

(** C1. For an engine and input made of trigger lines only, the loop is
    left waiting for the next line, and what it has written to the output
    stream is, after what was there before, one block per trigger line,
    the blocks one after the other; each block is one [begin] line, then
    measurement lines only, then one [end] line, and holds each marker
    exactly once. *)
Theorem Run_framing h ps ctx stdin p :
  engine_of h ps ctx -> Forall is_trigger stdin ->
  (Run h ctx stdin p).2 = Reading /\
  stdout (Run h ctx stdin p).1 =
    stdout p ++ concat (blocks ps (length stdin) (env p)) /\
  length (blocks ps (length stdin) (env p)) = length stdin /\
  Forall framed (blocks ps (length stdin) (env p)).
Proof.
  intros He Ht. rewrite (Run_triggers _ _ _ _ _ He Ht); simpl.
  destruct (one_cycle_iter ps (length stdin) p) as [Ho Hl].
  repeat split; try done. apply blocks_framed.
Qed.

(** *** Exits *)

Lemma Run_stop_clean h ps ctx pre r post p :
  engine_of h ps ctx -> Forall is_trigger pre ->
  err r = None -> line r = "quit" ->
  Run h ctx (pre ++ r :: post) p =
    (Nat.iter (length pre) (one_cycle ps) p, Exited 0).
Proof.
  intros He Ht Hr Hq.
  rewrite Run_app, (Run_triggers _ _ _ _ _ He Ht); simpl.
  rewrite Hr. by destruct (decide (line r = "quit")).
Qed.

Lemma Run_stop_error h ps ctx pre r post p :
  engine_of h ps ctx -> Forall is_trigger pre -> is_Some (err r) ->
  Run h ctx (pre ++ r :: post) p =
    (Nat.iter (length pre) (one_cycle ps) p, Exited 1).
Proof.
  intros He Ht [e Hr].
  rewrite Run_app, (Run_triggers _ _ _ _ _ He Ht); simpl.
  by rewrite Hr.
Qed.

Lemma is_trigger_dec (r : ReadLine_result) :
  is_trigger r \/ (err r = None /\ line r = "quit") \/ is_Some (err r).
Proof.
  unfold is_trigger. destruct (err r) as [e |]; [eauto |].
  destruct (decide (line r = "quit")); eauto.
Qed.

Lemma stdin_cases (stdin : list ReadLine_result) :
  Forall is_trigger stdin \/ stops_at_quit stdin \/ stops_at_error stdin.
Proof.
  induction stdin as [| r stdin IH]; [by left |].
  destruct (is_trigger_dec r) as [Hr | [[Hr Hq] | Hr]].
  - destruct IH as [IH | [IH | IH]].
    + left. by constructor.
    + right; left. destruct IH as (pre & r' & post & -> & ? & ? & ?).
      exists (r :: pre), r', post. split_and!; try done. by constructor.
    + right; right. destruct IH as (pre & r' & post & -> & ? & ?).
      exists (r :: pre), r', post. split_and!; try done. by constructor.
  - right; left. by exists [], r, stdin.
  - right; right. by exists [], r, stdin.
Qed.

(** C5. After any number of cycles, a read result whose line is exactly
    [quit] makes the engine exit with status 0; nothing is written for it
    or for what follows it: the output is the blocks of the cycles before.
    Any other line gets its cycle, and a line that equals [quit] only up
    to case or surrounding blanks is such a line. *)
Theorem quit_exits_clean h ps ctx pre r post p :
  engine_of h ps ctx -> Forall is_trigger pre ->
  err r = None -> line r = "quit" ->
  Run h ctx (pre ++ r :: post) p =
    (Nat.iter (length pre) (one_cycle ps) p, Exited 0) /\
  stdout (Run h ctx (pre ++ r :: post) p).1 =
    stdout p ++ concat (blocks ps (length pre) (env p)) /\
  (forall l b, l <> "quit" ->
     Run h ctx (pre ++ [mkReadLine l b None]) p =
       (one_cycle ps (Nat.iter (length pre) (one_cycle ps) p), Reading)) /\
  Forall (fun l => l <> "quit") [" quit "; "QUIT"; "Quit"; "quit "; " quit"].
Proof.
  intros He Ht Hr Hq.
  rewrite (Run_stop_clean _ _ _ _ _ _ _ He Ht Hr Hq).
  split_and!; [done | apply one_cycle_iter | | repeat constructor; discriminate].
  intros l b Hl.
  rewrite Run_app, (Run_triggers _ _ _ _ _ He Ht).
  by rewrite (Run_trigger h ps).
Qed.

(** C6. After any number of cycles, a read that returns an error (the end
    of the stream included) makes the engine exit with status 1, which is
    not the status of a clean exit; no cycle is started for it: the state
    of the process is the one the cycles before left. *)
Theorem read_error_exits_abnormal h ps ctx pre r post p :
  engine_of h ps ctx -> Forall is_trigger pre -> is_Some (err r) ->
  Run h ctx (pre ++ r :: post) p =
    (Nat.iter (length pre) (one_cycle ps) p, Exited 1) /\
  stdout (Run h ctx (pre ++ r :: post) p).1 =
    stdout p ++ concat (blocks ps (length pre) (env p)) /\
  Exited 1 <> Exited 0.
Proof.
  intros He Ht Hr.
  rewrite (Run_stop_error _ _ _ _ _ _ _ He Ht Hr).
  split_and!; [done | apply one_cycle_iter | discriminate].
Qed.

(** C10. An engine's loop ends in one of two ways only: with status 0,
    exactly when the input reaches a [quit] line after trigger lines, and
    with status 1, exactly when it reaches a read error after trigger
    lines; on input made of trigger lines only it is still in the loop,
    waiting. The two statuses differ and there is no other. *)
Theorem Run_exit_paths h ps ctx stdin p :
  engine_of h ps ctx ->
  ((Run h ctx stdin p).2 = Exited 0 <-> stops_at_quit stdin) /\
  ((Run h ctx stdin p).2 = Exited 1 <-> stops_at_error stdin) /\
  ((Run h ctx stdin p).2 = Reading <-> Forall is_trigger stdin) /\
  ((Run h ctx stdin p).2 = Exited 0 \/
   (Run h ctx stdin p).2 = Exited 1 \/
   (Run h ctx stdin p).2 = Reading) /\
  Exited 0 <> Exited 1.
Proof.
  intros He.
  assert (Forall is_trigger stdin -> (Run h ctx stdin p).2 = Reading) as HR.
  { intros Ht. by rewrite (Run_triggers _ _ _ _ _ He Ht). }
  assert (stops_at_quit stdin -> (Run h ctx stdin p).2 = Exited 0) as HQ.
  { intros (pre & r & post & -> & Ht & Hr & Hq).
    by rewrite (Run_stop_clean _ _ _ _ _ _ _ He Ht Hr Hq). }
  assert (stops_at_error stdin -> (Run h ctx stdin p).2 = Exited 1) as HE.
  { intros (pre & r & post & -> & Ht & Hr).
    by rewrite (Run_stop_error _ _ _ _ _ _ _ He Ht Hr). }
  pose proof (stdin_cases stdin) as Hc.
  set (st := (Run h ctx stdin p).2) in *.
  split_and!.
  - split; [intros E | exact HQ].
    destruct Hc as [H | [H | H]]; [apply HR in H | done | apply HE in H];
      congruence.
  - split; [intros E | exact HE].
    destruct Hc as [H | [H | H]]; [apply HR in H | apply HQ in H | done];
      congruence.
  - split; [intros E | exact HR].
    destruct Hc as [H | [H | H]]; [done | apply HQ in H | apply HE in H];
      congruence.
  - destruct Hc as [H | [H | H]]; eauto.
  - discriminate.
Qed.

(** *** Trigger lines *)

Lemma Run_same_but_trigger_content h ctx stdin1 stdin2 p :
  Forall2 same_but_trigger_content stdin1 stdin2 ->
  Run h ctx stdin1 p = Run h ctx stdin2 p.
Proof.
  intros H. revert p.
  induction H as [| r1 r2 stdin1 stdin2 Hr _ IH]; intros p; [done |].
  destruct Hr as [<- | [[He1 Hq1] [He2 Hq2]]]; simpl.
  - destruct (err r1); [done |].
    destruct (decide (line r1 = "quit")); [done |].
    destruct (cycle _ p); [apply IH | done].
  - rewrite He1, He2.
    destruct (decide (line r1 = "quit")); [done |].
    destruct (decide (line r2 = "quit")); [done |].
    destruct (cycle _ p); [apply IH | done].
Qed.

(** X19. Two sequences of read results that agree result by result, but
    for what their trigger results hold, are not told apart: the run
    gives the same output, error output, world and status for both. Any
    result with no error and a line other than [quit], the empty one
    included, is a trigger, and an engine answers each with one cycle. *)
Theorem trigger_content_ignored h ctx stdin1 stdin2 p :
  Forall2 same_but_trigger_content stdin1 stdin2 ->
  Run h ctx stdin1 p = Run h ctx stdin2 p /\
  (forall l b, l <> "quit" -> is_trigger (mkReadLine l b None)) /\
  is_trigger (mkReadLine "" false None) /\
  (forall ps, engine_of h ps ctx -> Forall is_trigger stdin1 ->
     Run h ctx stdin1 p =
       (Nat.iter (length stdin1) (one_cycle ps) p, Reading)).
Proof.
  intros H. split_and!.
  - by apply Run_same_but_trigger_content.
  - intros l b Hl. by split.
  - by split.
  - intros ps He Ht. by apply Run_triggers.
Qed.

(** *** Create *)

(** C4. [Create] returns an error and no context exactly when some sensor
    of the slice has a function that is not set; when all sensors have
    their three functions set, and so when the slice is empty, it returns
    the context and no error. *)
Theorem Create_validates h s :
  ((exists e, Create h s = (None, Some e)) <->
   Exists missing_callback (slice_elems h s)) /\
  (Forall specified (slice_elems h s) ->
   Create h s = (Some {| sensors := s |}, None)) /\
  (slice_elems h s = [] -> Create h s = (Some {| sensors := s |}, None)).
Proof.
  unfold Create. split_and!.
  - rewrite <- check_sensors_Some.
    destruct (check_sensors (slice_elems h s)) as [e |]; split.
    + eauto.
    + intros _. by exists e.
    + intros [e H]. discriminate H.
    + intros [e H]. discriminate H.
  - intros H. apply check_sensors_None in H. by rewrite H.
  - intros ->. done.
Qed.

(** The slice seen through a store in which one of its elements has been
    overwritten. *)
Lemma slice_elems_store h s i x h' :
  slice_store h s i x = Some h' ->
  slice_elems h' s = <[i := x]> (slice_elems h s).
Proof.
  unfold slice_store, slice_elems. intros H.
  destruct (decide (i < len s)) as [Hi |]; [| discriminate].
  injection H as <-. rewrite lookup_alter_eq.
  destruct (h !! base s) as [a |]; simpl.
  - rewrite drop_insert_ge by lia.
    replace (off s + i - off s) with i by lia.
    by rewrite take_insert_lt.
  - by rewrite drop_nil, take_nil.
Qed.

(** C7, as the code has it. [Create] only reads the store, and the context
    it returns holds the very slice it was given: after the caller
    overwrites element [i] of that slice, the engine's sensors are the old
    ones with element [i] replaced, and the next cycle runs over these. *)
Theorem Create_keeps_callers_slice h s ctx i x h' :
  Create h s = (Some ctx, None) ->
  slice_store h s i x = Some h' ->
  sensors ctx = s /\
  slice_elems h' (sensors ctx) = <[i := x]> (slice_elems h s) /\
  (forall r stdin p, is_trigger r ->
     Run h' ctx (r :: stdin) p =
       match cycle (<[i := x]> (slice_elems h s)) p with
       | Normal _ p' => Run h' ctx stdin p'
       | Panic p' => (p', Panicked)
       end).
Proof.
  intros Hc Hs. apply Create_engine in Hc as [-> _].
  pose proof (slice_elems_store _ _ _ _ _ Hs) as E.
  cbn [sensors]. split_and!; [done | done |].
  intros r stdin p [Hr Hq]. cbn [Run sensors]. rewrite Hr, E.
  by destruct (decide (line r = "quit")).
Qed.

(** *** Failures of producers *)

Lemma fails_produce pr w k e w' :
  fails pr w k e w' -> produce pr w = (Failed k e, w').
Proof.
  unfold produce. intros [v e' w1 H1 | a w1 v e' w2 H1 H2
                          | a w1 b w2 v e' w3 H1 H2 H3].
  - by rewrite H1.
  - by rewrite H1, H2.
  - by rewrite H1, H2, H3.
Qed.

Lemma produce_fails pr w k e w' :
  produce pr w = (Failed k e, w') -> fails pr w k e w'.
Proof.
  unfold produce.
  destruct (hostIdentity pr w) as [[a [e1 |]] w1] eqn:H1.
  { intros [= <- <- <-]. by eapply fails_host. }
  destruct (resourceIdentity pr w1) as [[b [e2 |]] w2] eqn:H2.
  { intros [= <- <- <-]. by eapply fails_resource. }
  destruct (measurementValue pr w2) as [[c [e3 |]] w3] eqn:H3.
  { intros [= <- <- <-]. by eapply fails_measurement. }
  discriminate.
Qed.

Lemma produce_Reported pr w a b c w3 :
  produce pr w = (Reported a b c, w3) <->
  exists w1 w2,
    hostIdentity pr w = ((a, None), w1) /\
    resourceIdentity pr w1 = ((b, None), w2) /\
    measurementValue pr w2 = ((c, None), w3).
Proof.
  unfold produce. split.
  - destruct (hostIdentity pr w) as [[a' [e1 |]] w1] eqn:H1;
      [discriminate |].
    destruct (resourceIdentity pr w1) as [[b' [e2 |]] w2] eqn:H2;
      [discriminate |].
    destruct (measurementValue pr w2) as [[c' [e3 |]] w3'] eqn:H3;
      [discriminate |].
    intros [= <- <- <- <-]. by exists w1, w2.
  - intros (w1 & w2 & H1 & H2 & H3). by rewrite H1, H2, H3.
Qed.

(** Each outcome of a pass is, position by position, the outcome of the
    producer at that place. *)
Lemma pass_outcomes ps w :
  Forall2 (fun pr o => exists w1 w2, produce pr w1 = (o, w2))
          ps (pass ps w).1.
Proof.
  revert w. induction ps as [| pr ps IH]; intros w; simpl; [constructor |].
  destruct (produce pr w) as [o w1] eqn:E. specialize (IH w1).
  destruct (pass ps w1) as [os w2]. simpl in *.
  constructor; [by exists w, w1 | done].
Qed.

Lemma diagnostic_names_call k k' e e' :
  diagnostic k e = diagnostic k' e' -> k = k'.
Proof. destruct k, k'; simpl; intros H; try done; discriminate H. Qed.

(** C2. In a cycle of an engine whose producers are [pre], then [pk], then
    [post], if [pk] fails at its turn (on its call [k], with error [e]),
    the cycle completes: the output gets [begin], the lines of the
    producers of [pre] that succeed, directly followed by the lines of the
    producers of [post] that succeed, and [end], with no line for [pk];
    the error output gets, between the diagnostics of [pre] and of [post],
    the one diagnostic of [pk], which names the call [k]; and the loop goes
    on to the next line with the same engine. *)
Theorem failure_isolated h pre pk post ctx p os1 w1 k e w2 os2 w3 :
  engine_of h (pre ++ pk :: post) ctx ->
  pass pre (env p) = (os1, w1) ->
  fails pk w1 k e w2 ->
  pass post w2 = (os2, w3) ->
  let p' := {| stdout := stdout p ++ ["begin" +:+ LF] ++ out_lines os1 ++
                         out_lines os2 ++ ["end" +:+ LF];
               stderr := stderr p ++ err_lines os1 ++ [diagnostic k e] ++
                         err_lines os2;
               env := w3 |} in
  cycle (slice_elems h (sensors ctx)) p = Normal tt p' /\
  (forall r stdin, is_trigger r ->
     Run h ctx (r :: stdin) p = Run h ctx stdin p') /\
  (forall k' e', diagnostic k e = diagnostic k' e' -> k = k').
Proof.
  intros He H1 Hk H2 p'.
  assert (one_cycle (pre ++ pk :: post) p = p') as Hp.
  { unfold one_cycle, p'. rewrite pass_app, H1; simpl.
    rewrite (fails_produce _ _ _ _ _ Hk), H2; simpl.
    unfold block. rewrite out_lines_app, err_lines_app; simpl.
    by rewrite <- !app_assoc. }
  split_and!.
  - by rewrite (engine_of_sensors _ _ _ He), cycle_one_cycle, Hp.
  - intros r stdin Hr. by rewrite (Run_trigger _ _ _ _ _ _ He Hr), Hp.
  - intros k' e'. apply diagnostic_names_call.
Qed.

(** *** Order of the lines *)

Lemma always_succeeds_produce pr w :
  always_succeeds pr ->
  exists a b c w', produce pr w = (Reported a b c, w').
Proof.
  intros (Hh & Hr & Hm). unfold produce.
  specialize (Hh w).
  destruct (hostIdentity pr w) as [[a e1] w1]. simpl in Hh. subst e1.
  specialize (Hr w1).
  destruct (resourceIdentity pr w1) as [[b e2] w2]. simpl in Hr. subst e2.
  specialize (Hm w2).
  destruct (measurementValue pr w2) as [[c e3] w3]. simpl in Hm. subst e3.
  by exists a, b, c, w3.
Qed.

Lemma pass_lines_in_order ps w :
  Forall always_succeeds ps ->
  Forall2 line_of ps (out_lines (pass ps w).1).
Proof.
  intros H. revert w. induction H as [| pr ps Hp _ IH]; intros w; simpl.
  - constructor.
  - destruct (always_succeeds_produce pr w Hp) as (a & b & c & w1 & E).
    rewrite E. specialize (IH w1). destruct (pass ps w1) as [os w2].
    simpl in *. constructor; [| done]. by exists w, a, b, c, w1.
Qed.

Lemma blocks_in_order ps n w :
  Forall always_succeeds ps ->
  Forall (fun b => exists ls,
            b = ("begin" +:+ LF) :: ls ++ ["end" +:+ LF] /\
            Forall2 line_of ps ls) (blocks ps n w).
Proof.
  intros H. unfold blocks. revert w.
  induction n as [| n IH]; intros w; simpl.
  - constructor.
  - pose proof (pass_lines_in_order ps w H) as Hl.
    specialize (IH (pass ps w).2).
    destruct (pass ps w) as [os w']. simpl in *.
    constructor; [| done]. by exists (out_lines os).
Qed.

(** C3. For an engine whose producers never fail and input made of
    trigger lines, the output is one block per trigger line, and in every
    block the lines between [begin] and [end] are, position by position,
    the measurement lines of the producers in the order of registration:
    as many lines as producers, the [i]-th line coming from the [i]-th
    producer, in each cycle alike. *)
Theorem lines_in_registration_order h ps ctx stdin p :
  engine_of h ps ctx -> Forall always_succeeds ps ->
  Forall is_trigger stdin ->
  stdout (Run h ctx stdin p).1 =
    stdout p ++ concat (blocks ps (length stdin) (env p)) /\
  length (blocks ps (length stdin) (env p)) = length stdin /\
  Forall (fun b => exists ls,
            b = ("begin" +:+ LF) :: ls ++ ["end" +:+ LF] /\
            Forall2 line_of ps ls)
         (blocks ps (length stdin) (env p)).
Proof.
  intros He Hs Ht. rewrite (Run_triggers _ _ _ _ _ He Ht); simpl.
  destruct (one_cycle_iter ps (length stdin) p) as [Ho Hl].
  split_and!; [done | done |]. by apply blocks_in_order.
Qed.

(** *** Order of the calls *)


(** *** The output as bytes

    When no value of a producer holds a line feed, the lines a reader
    finds in the bytes of the output are the writes of the engine. *)

Lemma string_app_assoc (a b c : string) : (a +:+ b) +:+ c = a +:+ b +:+ c.
Proof.
  induction a as [| x a IH]; [done |].
  change (String x ((a +:+ b) +:+ c) = String x (a +:+ b +:+ c)).
  by rewrite IH.
Qed.

Lemma newline_free_app (a b : string) :
  newline_free a -> newline_free b -> newline_free (a +:+ b).
Proof.
  intros Ha Hb. induction a as [| x a IH]; [done |].
  destruct Ha as [Hx Ha].
  change (newline_free (String x (a +:+ b))). by split; [| apply IH].
Qed.

Lemma split_lines_line (l rest : string) :
  newline_free l -> split_lines (l +:+ LF +:+ rest) = l :: split_lines rest.
Proof.
  intros Hl. induction l as [| x l IH].
  - change (split_lines (String "010"%char rest) = "" :: split_lines rest).
    simpl. by destruct (decide ("010"%char = "010"%char)).
  - destruct Hl as [Hx Hl].
    change (split_lines (String x (l +:+ LF +:+ rest)) =
            String x l :: split_lines rest).
    simpl. destruct (decide (x = "010"%char)); [done |]. by rewrite IH.
Qed.

Lemma split_lines_written (ls : list string) :
  Forall newline_free ls -> split_lines (bytes (written ls)) = ls.
Proof.
  induction 1 as [| l ls Hl _ IH]; [done |].
  unfold written, bytes in *. rewrite fmap_cons. simpl foldr.
  by rewrite string_app_assoc, split_lines_line, IH.
Qed.

Lemma out_lines_texts os : out_lines os = written (texts os).
Proof.
  induction os as [| [a b c | k e] os IH]; [done | | done].
  change (out_lines (Reported a b c :: os))
    with ((a +:+ ":" +:+ b +:+ ":" +:+ c +:+ LF) :: out_lines os).
  change (texts (Reported a b c :: os))
    with ((a +:+ ":" +:+ b +:+ ":" +:+ c) :: texts os).
  unfold written in *. rewrite fmap_cons, IH.
  by rewrite !string_app_assoc.
Qed.

Lemma block_text_block os : block os = written (text_block os).
Proof.
  unfold block, text_block. rewrite out_lines_texts. unfold written.
  by rewrite fmap_cons, fmap_app.
Qed.

Lemma blocks_text_blocks ps n w :
  concat (blocks ps n w) = written (concat (text_block <$> passes ps n w)).
Proof.
  unfold blocks. induction (passes ps n w) as [| os oss IH]; [done |].
  rewrite !fmap_cons, !concat_cons, IH, block_text_block.
  unfold written. by rewrite fmap_app.
Qed.

Lemma texts_not_marker os :
  Forall (fun l => l <> "begin" /\ l <> "end") (texts os).
Proof.
  induction os as [| [a b c | k e] os IH]; simpl; [constructor | | done].
  constructor; [| done].
  pose proof (has_colon_app a (b +:+ ":" +:+ c)) as H.
  split; intros E; rewrite E in H; discriminate H.
Qed.

Lemma produce_tidy pr w a b c w' :
  tidy pr -> produce pr w = (Reported a b c, w') ->
  newline_free (a +:+ ":" +:+ b +:+ ":" +:+ c).
Proof.
  intros Ht. unfold produce.
  destruct (Ht w) as (Ha & _ & _).
  destruct (hostIdentity pr w) as [[a' [e1 |]] w1]; [discriminate |].
  destruct (Ht w1) as (_ & Hb & _).
  destruct (resourceIdentity pr w1) as [[b' [e2 |]] w2]; [discriminate |].
  destruct (Ht w2) as (_ & _ & Hc).
  destruct (measurementValue pr w2) as [[c' [e3 |]] w3]; [discriminate |].
  intros [= <- <- <- <-]. simpl in Ha, Hb, Hc.
  assert (newline_free ":") as Hcolon by (split; [discriminate | done]).
  apply newline_free_app; [done |].
  apply newline_free_app; [done |].
  apply newline_free_app; [done |].
  by apply newline_free_app.
Qed.

Lemma pass_tidy ps w :
  Forall tidy ps -> Forall newline_free (texts (pass ps w).1).
Proof.
  intros H. revert w. induction H as [| pr ps Hp _ IH]; intros w; simpl.
  - constructor.
  - destruct (produce pr w) as [o w1] eqn:E. specialize (IH w1).
    destruct (pass ps w1) as [os w2]. simpl in *.
    destruct o as [a b c | k e]; simpl; [| done].
    constructor; [| done]. by eapply produce_tidy.
Qed.

Lemma passes_tidy ps n w :
  Forall tidy ps ->
  Forall newline_free (concat (text_block <$> passes ps n w)).
Proof.
  intros H. revert w. induction n as [| n IH]; intros w; simpl.
  - constructor.
  - pose proof (pass_tidy ps w H) as Hp. specialize (IH (pass ps w).2).
    destruct (pass ps w) as [os w']. simpl in *.
    constructor; [done |]. apply Forall_app. split; [| done].
    apply Forall_app. split; [done |]. by constructor.
Qed.

(** X17. Framing, as a reader of the bytes sees it. For an engine whose
    producers return no line feed and input made of trigger lines, the
    lines of the bytes written are, cycle after cycle, [begin], the
    measurement lines, [end]; no measurement line is a marker. *)
Theorem bytes_of_cycles_framed h ps ctx stdin p :
  engine_of h ps ctx -> Forall tidy ps -> Forall is_trigger stdin ->
  stdout (Run h ctx stdin p).1 =
    stdout p ++ concat (blocks ps (length stdin) (env p)) /\
  split_lines (bytes (concat (blocks ps (length stdin) (env p)))) =
    concat (text_block <$> passes ps (length stdin) (env p)) /\
  Forall (fun os => Forall (fun l => l <> "begin" /\ l <> "end") (texts os))
         (passes ps (length stdin) (env p)).
Proof.
  intros He Hp Ht. rewrite (Run_triggers _ _ _ _ _ He Ht); simpl.
  split_and!.
  - apply one_cycle_iter.
  - rewrite blocks_text_blocks. by apply split_lines_written, passes_tidy.
  - apply Forall_true. intros os. apply texts_not_marker.
Qed.

(** [Run] does not look at the second result of [ReadLine]: a piece of a
    line too long for the buffer is taken for a whole line. *)
Remark Run_ignores_isPrefix h ctx l b e stdin p :
  Run h ctx (mkReadLine l b e :: stdin) p =
  Run h ctx (mkReadLine l (negb b) e :: stdin) p.
Proof. reflexivity. Qed.

End Properties.

(** ** The small installation at work *)

Lemma Run_framing_witness :
  (Run example_heap example_ctx [poll ""; poll "load"] start).2 = Reading /\
  stdout (Run example_heap example_ctx [poll ""; poll "load"] start).1 =
    concat (blocks example_producers 2 tt) /\
  length (blocks example_producers 2 tt) = 2 /\
  Forall framed (blocks example_producers 2 tt).
Proof.
  apply (Run_framing example_heap example_producers example_ctx
           [poll ""; poll "load"] start).
  - engine_of_example example_slice.
  - all_triggers.
Defined.

Lemma failure_isolated_witness :
  cycle (slice_elems example_heap (sensors example_ctx)) start =
    Normal tt
      {| stdout := written ["begin"; "hostA:mem:42"; "hostC:swap:7"; "end"];
         stderr := written ["error during measurement function call: no data"];
         env := tt |}.
Proof.
  refine (proj1 (failure_isolated example_heap [producerA] producerB
                   [producerC] example_ctx start
                   [Reported "hostA" "mem" "42"] tt Measurement "no data" tt
                   [Reported "hostC" "swap" "7"] tt _ _ _ _)).
  - engine_of_example example_slice.
  - reflexivity.
  - eapply fails_measurement; reflexivity.
  - reflexivity.
Defined.

Lemma lines_in_registration_order_witness :
  stdout (Run example_heap healthy_ctx [poll "a"; poll "b"] start).1 =
    concat (blocks healthy_producers 2 tt) /\
  length (blocks healthy_producers 2 tt) = 2 /\
  Forall (fun b => exists ls,
            b = ("begin" +:+ LF) :: ls ++ ["end" +:+ LF] /\
            Forall2 line_of healthy_producers ls)
         (blocks healthy_producers 2 tt).
Proof.
  apply (lines_in_registration_order example_heap healthy_producers
           healthy_ctx [poll "a"; poll "b"] start).
  - engine_of_example healthy_slice.
  - repeat constructor.
  - all_triggers.
Defined.

Lemma Create_validates_witness :
  Create example_heap example_slice = (Some example_ctx, None) /\
  exists e, Create broken_heap example_slice = (None, Some e).
Proof.
  split.
  - apply (proj1 (proj2 (Create_validates example_heap example_slice))).
    vm_compute. repeat constructor; eexists; reflexivity.
  - apply (proj2 (proj1 (Create_validates broken_heap example_slice))).
    vm_compute. apply Exists_cons_tl, Exists_cons_hd.
    right; left. reflexivity.
Defined.

Lemma quit_exits_clean_witness :
  Run example_heap example_ctx ([poll ""] ++ poll "quit" :: [poll "late"])
    start =
    (Nat.iter 1 (one_cycle example_producers) start, Exited 0).
Proof.
  refine (proj1 (quit_exits_clean example_heap example_producers example_ctx
                   [poll ""] (poll "quit") [poll "late"] start _ _ _ _)).
  - engine_of_example example_slice.
  - all_triggers.
  - reflexivity.
  - reflexivity.
Defined.

Lemma read_error_exits_abnormal_witness :
  Run example_heap example_ctx ([poll ""; poll "x"] ++ eof :: []) start =
    (Nat.iter 2 (one_cycle example_producers) start, Exited 1).
Proof.
  refine (proj1 (read_error_exits_abnormal example_heap example_producers
                   example_ctx [poll ""; poll "x"] eof [] start _ _ _)).
  - engine_of_example example_slice.
  - all_triggers.
  - eexists; reflexivity.
Defined.

Lemma Create_keeps_callers_slice_witness :
  slice_elems mutated_heap (sensors example_ctx) =
    <[0 := Sensor_of producerC]> (slice_elems example_heap example_slice).
Proof.
  refine (proj1 (proj2 (Create_keeps_callers_slice example_heap example_slice
                          example_ctx 0 (Sensor_of producerC) mutated_heap
                          _ _))).
  - reflexivity.
  - reflexivity.
Defined.

Lemma trigger_content_ignored_witness :
  Run example_heap example_ctx [poll ""; poll "a"; poll "quit"] start =
  Run example_heap example_ctx [poll "zzz"; poll " quit "; poll "quit"] start.
Proof.
  refine (proj1 (trigger_content_ignored example_heap example_ctx
                   [poll ""; poll "a"; poll "quit"]
                   [poll "zzz"; poll " quit "; poll "quit"] start _)).
  constructor; [right; all_triggers |].
  constructor; [right; all_triggers |].
  constructor; [left; reflexivity | constructor].
Defined.


Lemma Run_exit_paths_witness :
  (Run example_heap example_ctx [poll ""; poll "quit"] start).2 = Exited 0.
Proof.
  apply (Run_exit_paths example_heap example_producers example_ctx
           [poll ""; poll "quit"] start).
  - engine_of_example example_slice.
  - exists [poll ""], (poll "quit"), [].
    split; [reflexivity |]. split; [all_triggers |]. split; reflexivity.
Defined.

(** C7 with a copy does not hold. The engine made from the slice of the
    three producers reports [hostA] first; once the caller has overwritten
    the first element of the slice, the same engine reports [hostC] first:
    the engine has no copy of its own. *)
Lemma Create_makes_no_copy :
  Create example_heap example_slice = (Some example_ctx, None) /\
  slice_store example_heap example_slice 0 (Sensor_of producerC) =
    Some mutated_heap /\
  stdout (Run example_heap example_ctx [poll ""] start).1 =
    written ["begin"; "hostA:mem:42"; "hostC:swap:7"; "end"] /\
  stdout (Run mutated_heap example_ctx [poll ""] start).1 =
    written ["begin"; "hostC:swap:7"; "hostC:swap:7"; "end"] /\
  stdout (Run mutated_heap example_ctx [poll ""] start).1 <>
  stdout (Run example_heap example_ctx [poll ""] start).1.
Proof.
  split_and!; try reflexivity. vm_compute. discriminate.
Qed.

(** ** Further properties of Create and Run *)

Section Further.

Context {W : Type}.

Implicit Types (h : heap W) (s : slice) (ctx : Context).
Implicit Types (pr : Producer W) (ps : list (Producer W)).
Implicit Types (p : process W) (w : W) (os : list outcome).

(** *** Which error Create returns *)

Lemma check_sensors_skip (pre rest : list (Sensor W)) :
  Forall specified pre -> check_sensors (pre ++ rest) = check_sensors rest.
Proof.
  induction 1 as [| x pre Hx _ IH]; [done |].
  apply check_sensor_None in Hx. simpl. by rewrite Hx.
Qed.

(** X1. [Create] reports the first sensor that lacks a function, and of
    that sensor the first function that is not set, in the order host,
    resource, measurement; what comes after it in the slice plays no
    part. *)
Theorem Create_first_missing h s pre bad post :
  slice_elems h s = pre ++ bad :: post ->
  Forall specified pre ->
  (HostNameFunction bad = None ->
   Create h s = (None, Some "HostNameFunction is not set")) /\
  (is_Some (HostNameFunction bad) -> ResourceNameFunction bad = None ->
   Create h s = (None, Some "ResourceNameFunction is not set")) /\
  (is_Some (HostNameFunction bad) -> is_Some (ResourceNameFunction bad) ->
   MeasurementFunction bad = None ->
   Create h s = (None, Some "MeasurementFunction is not set")).
Proof.
  intros Hs Hpre. unfold Create.
  rewrite Hs, (check_sensors_skip _ _ Hpre). simpl. unfold check_sensor.
  split_and!.
  - by intros ->.
  - intros [f ->] ->. done.
  - intros [f ->] [g ->] ->. done.
Qed.

(** *** Input in parts *)

(** X2. Input may be fed in parts: while the loop is still reading after
    the first part, the run goes on with the second part from the state
    the first one left; once the process has exited or panicked, nothing
    that follows on the input changes the result. *)
Theorem Run_resumes h ctx stdin1 stdin2 p :
  (forall p', Run h ctx stdin1 p = (p', Reading) ->
     Run h ctx (stdin1 ++ stdin2) p = Run h ctx stdin2 p') /\
  ((Run h ctx stdin1 p).2 <> Reading ->
     Run h ctx (stdin1 ++ stdin2) p = Run h ctx stdin1 p).
Proof.
  rewrite Run_app. split.
  - by intros p' ->.
  - destruct (Run h ctx stdin1 p) as [p' [| code |]]; simpl; done.
Qed.

(** *** Nothing written is taken back *)

Lemma grows_refl p : grows p p.
Proof. by split. Qed.

Lemma grows_trans p1 p2 p3 : grows p1 p2 -> grows p2 p3 -> grows p1 p3.
Proof. intros [? ?] [? ?]. split; by etrans. Qed.

Lemma call_grows (f : option (callback W)) p :
  match call f p with
  | Normal _ p' | Panic p' => grows p p'
  end.
Proof.
  unfold call. destruct f as [g |]; [| apply grows_refl].
  destruct (g (env p)) as [r w]. by split.
Qed.

Lemma report_grows (sensor : Sensor W) p :
  match report sensor p with
  | Normal _ p' | Panic p' => grows p p'
  end.
Proof.
  assert (forall q prefix e,
            grows p q ->
            match Fprintf_Stderr prefix e q with
            | Normal _ p' | Panic p' => grows p p'
            end) as Herr.
  { intros q prefix e Hq. simpl. eapply grows_trans; [exact Hq |].
    split; simpl; [done | by apply prefix_app_r]. }
  unfold report, mbind, M_bind.
  pose proof (call_grows (HostNameFunction sensor) p) as H1.
  destruct (call (HostNameFunction sensor) p) as [[host [e |]] p1 | p1];
    [by apply Herr | | done].
  pose proof (call_grows (ResourceNameFunction sensor) p1) as H2.
  destruct (call (ResourceNameFunction sensor) p1)
    as [[resource [e |]] p2 | p2];
    [apply Herr | | ]; try by eapply grows_trans.
  pose proof (call_grows (MeasurementFunction sensor) p2) as H3.
  destruct (call (MeasurementFunction sensor) p2)
    as [[measurement [e |]] p3 | p3];
    [apply Herr | | ]; try by do 2 (eapply grows_trans; [| done]).
  simpl. eapply grows_trans; [exact H1 |].
  eapply grows_trans; [exact H2 |]. eapply grows_trans; [exact H3 |].
  split; simpl; [by apply prefix_app_r | done].
Qed.

Lemma range_sensors_grows (ss : list (Sensor W)) p :
  match range_sensors ss p with
  | Normal _ p' | Panic p' => grows p p'
  end.
Proof.
  revert p. induction ss as [| sensor ss IH]; intros p; simpl.
  - apply grows_refl.
  - unfold mbind, M_bind. pose proof (report_grows sensor p) as H1.
    destruct (report sensor p) as [[] p1 | p1]; [| done].
    specialize (IH p1).
    destruct (range_sensors ss p1) as [[] p2 | p2]; by eapply grows_trans.
Qed.

Lemma cycle_grows (ss : list (Sensor W)) p :
  match cycle ss p with
  | Normal _ p' | Panic p' => grows p p'
  end.
Proof.
  unfold cycle, mbind, M_bind. simpl.
  set (p0 := {| stdout := stdout p ++ ["begin" +:+ LF];
                stderr := stderr p; env := env p |}).
  assert (grows p p0) as H0.
  { split; simpl; [by apply prefix_app_r | done]. }
  pose proof (range_sensors_grows ss p0) as H1.
  destruct (range_sensors ss p0) as [[] p1 | p1];
    [| by eapply grows_trans].
  simpl. eapply grows_trans; [exact H0 |]. eapply grows_trans; [exact H1 |].
  split; simpl; [by apply prefix_app_r | done].
Qed.

(** X3. Whatever the context, the sensors and the input, and however the
    run ends, [Run] only appends: what the two streams held before is
    what they start with afterwards. *)
Theorem Run_only_appends h ctx stdin p :
  stdout p `prefix_of` stdout (Run h ctx stdin p).1 /\
  stderr p `prefix_of` stderr (Run h ctx stdin p).1.
Proof.
  change (grows p (Run h ctx stdin p).1).
  revert p. induction stdin as [| r stdin IH]; intros p; simpl.
  - apply grows_refl.
  - destruct (err r); [apply grows_refl |].
    destruct (decide (line r = "quit")); [apply grows_refl |].
    pose proof (cycle_grows (slice_elems h (sensors ctx)) p) as H1.
    destruct (cycle (slice_elems h (sensors ctx)) p) as [[] p1 | p1];
      [| done].
    eapply grows_trans; [exact H1 | apply IH].
Qed.

(** *** Every producer is accounted for *)

Lemma outcome_lines_length os :
  length (out_lines os) + length (err_lines os) = length os.
Proof.
  induction os as [| [a b c | k e] os IH]; [done | |].
  - change (out_lines (Reported a b c :: os))
      with ((a +:+ ":" +:+ b +:+ ":" +:+ c +:+ LF) :: out_lines os).
    change (err_lines (Reported a b c :: os)) with (err_lines os).
    simpl. lia.
  - change (out_lines (Failed k e :: os)) with (out_lines os).
    change (err_lines (Failed k e :: os))
      with (diagnostic k e :: err_lines os).
    simpl. lia.
Qed.

Lemma one_cycle_lengths ps p :
  length (stdout (one_cycle ps p)) + length (stderr (one_cycle ps p)) =
  length (stdout p) + length (stderr p) + (2 + length ps).
Proof.
  unfold one_cycle, block. pose proof (pass_length ps (env p)) as Hl.
  pose proof (outcome_lines_length (pass ps (env p)).1) as Ho.
  destruct (pass ps (env p)) as [os w]. simpl in *.
  rewrite !length_app. simpl. rewrite !length_app. simpl. lia.
Qed.

(** X4. In every cycle of an engine each producer accounts for exactly
    one write, a measurement line on the output or a diagnostic on the
    error output: after [n] trigger lines the two streams together hold
    [n * (2 + number of producers)] more writes than before. *)
Theorem every_producer_accounted h ps ctx stdin p :
  engine_of h ps ctx -> Forall is_trigger stdin ->
  length (stdout (Run h ctx stdin p).1) +
  length (stderr (Run h ctx stdin p).1) =
  length (stdout p) + length (stderr p) +
  length stdin * (2 + length ps).
Proof.
  intros He Ht. rewrite (Run_triggers _ _ _ _ _ He Ht). simpl.
  induction (length stdin) as [| n IH]; simpl; [lia |].
  rewrite one_cycle_lengths, IH. lia.
Qed.

(** *** The error output *)

Lemma err_lines_diagnostics os : Forall is_diagnostic (err_lines os).
Proof.
  induction os as [| [a b c | k e] os IH]; [constructor | done |].
  change (err_lines (Failed k e :: os)) with (diagnostic k e :: err_lines os).
  constructor; [by exists k, e | done].
Qed.

Lemma one_cycle_iter_stderr ps n p :
  stderr (Nat.iter n (one_cycle ps) p) =
  stderr p ++ concat (err_lines <$> passes ps n (env p)).
Proof.
  revert p. induction n as [| n IH]; intros p.
  - simpl. by rewrite app_nil_r.
  - rewrite Nat.iter_succ_r, IH. unfold one_cycle. simpl passes.
    destruct (pass ps (env p)) as [os w]. simpl.
    by rewrite <- app_assoc.
Qed.

(** X5. On trigger lines an engine writes nothing to the error output but
    diagnostics of failed calls: what it adds there is, pass after pass
    and producer after producer, the diagnostics of the producers that
    failed. *)
Theorem stderr_holds_diagnostics h ps ctx stdin p :
  engine_of h ps ctx -> Forall is_trigger stdin ->
  stderr (Run h ctx stdin p).1 =
    stderr p ++ concat (err_lines <$> passes ps (length stdin) (env p)) /\
  Forall is_diagnostic
         (concat (err_lines <$> passes ps (length stdin) (env p))).
Proof.
  intros He Ht. rewrite (Run_triggers _ _ _ _ _ He Ht). simpl.
  split; [apply one_cycle_iter_stderr |].
  apply Forall_concat, Forall_fmap, Forall_true. intros os.
  apply err_lines_diagnostics.
Qed.

(** *** The engine without sensors *)

Lemma no_sensors_iter n p :
  Nat.iter n (one_cycle (@nil (Producer W))) p =
  {| stdout := stdout p ++
               concat (replicate n ["begin" +:+ LF; "end" +:+ LF]);
     stderr := stderr p;
     env := env p |}.
Proof.
  revert p. induction n as [| n IH]; intros p.
  - simpl. rewrite app_nil_r. by destruct p.
  - rewrite Nat.iter_succ_r, IH. unfold one_cycle, block. simpl.
    by rewrite app_nil_r, <- app_assoc.
Qed.

(** X6. A slice of length 0 (the [nil] slice is one) is accepted by
    [Create], and the engine made from it answers every trigger line with
    [begin] directly followed by [end]; it writes no diagnostic and calls
    nothing. *)
Theorem empty_engine h s stdin p :
  len s = 0 -> Forall is_trigger stdin ->
  Create h s = (Some {| sensors := s |}, None) /\
  Run h {| sensors := s |} stdin p =
    ({| stdout := stdout p ++
                  concat (replicate (length stdin)
                            ["begin" +:+ LF; "end" +:+ LF]);
        stderr := stderr p;
        env := env p |}, Reading).
Proof.
  intros Hl Ht.
  assert (slice_elems h s = []) as Hs.
  { unfold slice_elems. by rewrite Hl. }
  assert (Create h s = (Some {| sensors := s |}, None)) as Hc.
  { unfold Create. by rewrite Hs. }
  split; [done |].
  assert (engine_of h [] {| sensors := s |}) as He by by exists s.
  by rewrite (Run_triggers _ _ _ _ _ He Ht), no_sensors_iter.
Qed.

(** *** Colons in values *)

(** X18. A measurement line does not tell where its fields end when a
    value holds a colon: a host [a:b] with resource [c] gives the very
    line that host [a] with resource [b:c] gives. *)
Theorem colon_in_value_is_ambiguous (a b c d : string) p :
  Printf_line (a +:+ ":" +:+ b) c d p = Printf_line a (b +:+ ":" +:+ c) d p /\
  (a +:+ ":" +:+ b, c) <> (a, b +:+ ":" +:+ c).
Proof.
  split.
  - unfold Printf_line. by rewrite !string_app_assoc.
  - intros [= Ha _]. assert (String.length (a +:+ ":" +:+ b) =
                             String.length a) as Hl by by rewrite Ha.
    clear Ha. induction a as [| x a IH]; [discriminate |].
    apply IH. by injection Hl.
Qed.

End Further.

(** ** Functions that are not set *)

Section Unset.

Context {W : Type}.

Implicit Types (h : heap W) (s : slice) (ctx : Context).
Implicit Types (pr : Producer W) (ps : list (Producer W)).
Implicit Types (p : process W) (w : W) (os : list outcome).

Lemma report_hits_nil (sensor : Sensor W) p w' :
  hits_nil sensor (env p) w' ->
  report sensor p =
    Panic {| stdout := stdout p; stderr := stderr p; env := w' |}.
Proof.
  unfold report, mbind, M_bind, call.
  intros [H1 | f a w1 H1 Hf H2 | f a w1 g b w2 H1 Hf H2 Hg H3].
  - rewrite H1. by destruct p.
  - rewrite H1, Hf. simpl. by rewrite H2.
  - rewrite H1, Hf. simpl. rewrite H2, Hg. simpl. by rewrite H3.
Qed.

Lemma range_sensors_app (ss1 ss2 : list (Sensor W)) p :
  range_sensors (ss1 ++ ss2) p =
  match range_sensors ss1 p with
  | Normal _ p' => range_sensors ss2 p'
  | Panic p' => Panic p'
  end.
Proof.
  revert p. induction ss1 as [| sensor ss1 IH]; intros p; simpl; [done |].
  unfold mbind, M_bind. destruct (report sensor p) as [[] p1 | p1]; [| done].
  apply IH.
Qed.

Lemma cycle_hits_nil pre (bad : Sensor W) post p os w w' :
  pass pre (env p) = (os, w) ->
  hits_nil bad w w' ->
  cycle ((Sensor_of <$> pre) ++ bad :: post) p =
    Panic {| stdout := stdout p ++ ("begin" +:+ LF) :: out_lines os;
             stderr := stderr p ++ err_lines os;
             env := w' |}.
Proof.
  intros Hp Hb. unfold cycle, mbind, M_bind. simpl.
  rewrite range_sensors_app, range_sensors_pass. simpl. rewrite Hp. simpl.
  unfold mbind, M_bind. rewrite (report_hits_nil bad _ w'); [| done].
  unfold emit. simpl. by rewrite <- app_assoc.
Qed.

Lemma Run_hits_nil h ctx pre (bad : Sensor W) post r stdin p os w w' :
  slice_elems h (sensors ctx) = (Sensor_of <$> pre) ++ bad :: post ->
  pass pre (env p) = (os, w) ->
  hits_nil bad w w' ->
  is_trigger r ->
  Run h ctx (r :: stdin) p =
    ({| stdout := stdout p ++ ("begin" +:+ LF) :: out_lines os;
        stderr := stderr p ++ err_lines os;
        env := w' |}, Panicked).
Proof.
  intros Hs Hp Hb [Hr Hq]. simpl. rewrite Hr.
  destruct (decide (line r = "quit")); [done |].
  by rewrite Hs, (cycle_hits_nil _ _ _ _ _ _ _ Hp Hb).
Qed.

(** X7. When in a cycle the loop body comes to call a function that is
    not set, the process panics there: [begin] and the lines and
    diagnostics of the sensors before are written, [end] is not, the
    sensors after are not called, and no further input is read. *)
Theorem nil_function_panics h ctx pre (bad : Sensor W) post r stdin p os w w' :
  slice_elems h (sensors ctx) = (Sensor_of <$> pre) ++ bad :: post ->
  pass pre (env p) = (os, w) ->
  hits_nil bad w w' ->
  is_trigger r ->
  Run h ctx (r :: stdin) p =
    ({| stdout := stdout p ++ ("begin" +:+ LF) :: out_lines os;
        stderr := stderr p ++ err_lines os;
        env := w' |}, Panicked) /\
  occurrences ("end" +:+ LF) (("begin" +:+ LF) :: out_lines os) = 0.
Proof.
  intros Hs Hp Hb Hr. split.
  - by eapply Run_hits_nil.
  - apply occurrences_absent. constructor; [discriminate |].
    eapply Forall_impl; [apply out_lines_measurement |].
    intros l Hl. by apply measurement_line_not_marker.
Qed.

(** X8. A function that is not set does no harm as long as it is not
    reached: if the host call fails, the loop body ends with the host
    diagnostic whatever the other two fields hold, and if the resource
    call fails, whatever the measurement field holds. *)
Theorem unreached_nil_is_harmless (sensor : Sensor W) p :
  (forall f a e w1,
     HostNameFunction sensor = Some f ->
     f (env p) = ((a, Some e), w1) ->
     report sensor p =
       Normal tt {| stdout := stdout p;
                    stderr := stderr p ++ [diagnostic HostName e];
                    env := w1 |}) /\
  (forall f a w1 g b e w2,
     HostNameFunction sensor = Some f ->
     f (env p) = ((a, None), w1) ->
     ResourceNameFunction sensor = Some g ->
     g w1 = ((b, Some e), w2) ->
     report sensor p =
       Normal tt {| stdout := stdout p;
                    stderr := stderr p ++ [diagnostic ResourceName e];
                    env := w2 |}).
Proof.
  unfold report, mbind, M_bind, call. split.
  - intros f a e w1 H1 Hf. by rewrite H1, Hf.
  - intros f a w1 g b e w2 H1 Hf H2 Hg.
    rewrite H1, Hf. simpl. by rewrite H2, Hg.
Qed.

(** X9. What [Create] has checked is not checked again: if, after
    [Create] has accepted a slice, the caller stores into it a sensor
    whose host function is not set, the engine panics in its next cycle,
    having written [begin] and measurement lines but no [end]. *)
Theorem validation_is_not_repeated h s ctx i (x : Sensor W) h' r stdin p :
  Create h s = (Some ctx, None) ->
  slice_store h s i x = Some h' ->
  i < length (slice_elems h s) ->
  HostNameFunction x = None ->
  is_trigger r ->
  exists p' ls,
    Run h' ctx (r :: stdin) p = (p', Panicked) /\
    stdout p' = stdout p ++ ("begin" +:+ LF) :: ls /\
    Forall measurement_line ls.
Proof.
  intros Hc Hs Hi Hx Hr.
  pose proof (slice_elems_store _ _ _ _ _ Hs) as E.
  destruct (Create_engine _ _ _ Hc) as [-> (ps & s' & Hc' & Hps)].
  apply Create_engine in Hc' as [[= <-] _].
  rewrite insert_take_drop in E by done.
  rewrite Hps, <- fmap_take in E.
  destruct (pass (take i ps) (env p)) as [os w] eqn:Hp.
  eexists _, (out_lines os). split_and!.
  - eapply Run_hits_nil; [exact E | exact Hp | | exact Hr].
    by apply hits_nil_host.
  - done.
  - apply out_lines_measurement.
Qed.

End Unset.

(** ** Arch, LocalHostname and the example program *)

Section Helpers.

Context {X : Type}.

Variable TrimSpace : string -> string.

Variable command_run :
  string -> list string -> gmap string string -> X ->
  (string * option error) * X.

Variable kernel_hostname : X -> string * option error.

Implicit Types (m : machine X) (p : process (machine X)).

Local Abbreviation Arch' := (Arch TrimSpace command_run) (only parsing).
Local Abbreviation LocalHostname' :=
  (LocalHostname TrimSpace command_run) (only parsing).
Local Abbreviation simple_producer' :=
  (simple_producer TrimSpace command_run kernel_hostname) (only parsing).
Local Abbreviation main' :=
  (main TrimSpace command_run kernel_hostname) (only parsing).

Lemma Arch_machine m :
  environ (Arch' m).2 = environ m /\
  spawned (Arch' m).2 =
    spawned m ++ [(os_Getenv "SGE_ROOT" m +:+ "/util/arch", [])].
Proof.
  unfold Arch, exec_Output.
  by destruct (command_run _ [] (environ m) (outside m)) as [[out e] x].
Qed.

Lemma LocalHostname_arch_failure_aux m out e x :
  command_run (os_Getenv "SGE_ROOT" m +:+ "/util/arch") []
    (environ m) (outside m) = ((out, Some e), x) ->
  LocalHostname' m =
    (("", Some e),
     {| environ := environ m;
        spawned := spawned m ++
                   [(os_Getenv "SGE_ROOT" m +:+ "/util/arch", [])];
        outside := x |}).
Proof.
  intros H. unfold LocalHostname, Arch, exec_Output. by rewrite H.
Qed.

Lemma LocalHostname_success_aux m arch x1 out e x2 :
  command_run (os_Getenv "SGE_ROOT" m +:+ "/util/arch") []
    (environ m) (outside m) = ((arch, None), x1) ->
  command_run
    (os_Getenv "SGE_ROOT" m +:+ "/utilbin/" +:+ TrimSpace arch +:+
     "/gethostname") ["-name"] (environ m) x1 = ((out, e), x2) ->
  LocalHostname' m =
    ((TrimSpace out, e),
     {| environ := environ m;
        spawned := spawned m ++
                   [(os_Getenv "SGE_ROOT" m +:+ "/util/arch", []);
                    (os_Getenv "SGE_ROOT" m +:+ "/utilbin/" +:+
                     TrimSpace arch +:+ "/gethostname", ["-name"])];
        outside := x2 |}).
Proof.
  intros H1 H2. unfold LocalHostname, Arch, exec_Output. rewrite H1.
  simpl. unfold os_Getenv in *. simpl. rewrite H2.
  by rewrite <- app_assoc.
Qed.

(** X10. [Arch] keeps nothing from one call to the next: each call runs
    the script [util/arch] under [SGE_ROOT] again, so that [n] calls in a
    row run it [n] times; the environment is left as it is. *)
Theorem Arch_runs_every_time n m :
  spawned (after_calls Arch' n m) =
    spawned m ++
    replicate n (os_Getenv "SGE_ROOT" m +:+ "/util/arch", []) /\
  environ (after_calls Arch' n m) = environ m.
Proof.
  unfold after_calls. induction n as [| n [IHs IHe]]; simpl.
  - by rewrite app_nil_r.
  - destruct (Arch_machine (Nat.iter n (fun m' => (Arch' m').2) m))
      as [He Hs].
    rewrite He, Hs, IHs, IHe. split; [| done].
    unfold os_Getenv. rewrite IHe.
    by rewrite <- app_assoc, <- replicate_S_end.
Qed.

(** X11. If the script [util/arch] cannot be run or fails, [LocalHostname]
    returns the empty string with the error of that run, and
    [gethostname] is not asked for: the script is the one command. *)
Theorem LocalHostname_arch_failure m out e x :
  command_run (os_Getenv "SGE_ROOT" m +:+ "/util/arch") []
    (environ m) (outside m) = ((out, Some e), x) ->
  LocalHostname' m =
    (("", Some e),
     {| environ := environ m;
        spawned := spawned m ++
                   [(os_Getenv "SGE_ROOT" m +:+ "/util/arch", [])];
        outside := x |}).
Proof.
  intros H. unfold LocalHostname, Arch, exec_Output.
  rewrite H. reflexivity.
Qed.

(** X12. If the script [util/arch] succeeds, [LocalHostname] then runs
    [gethostname -name] from the directory [utilbin] of the architecture
    the script printed, blanks trimmed, and returns what that command
    printed, blanks trimmed, together with its error if it has one. *)
Theorem LocalHostname_runs_gethostname m arch x1 out e x2 :
  command_run (os_Getenv "SGE_ROOT" m +:+ "/util/arch") []
    (environ m) (outside m) = ((arch, None), x1) ->
  command_run
    (os_Getenv "SGE_ROOT" m +:+ "/utilbin/" +:+ TrimSpace arch +:+
     "/gethostname") ["-name"] (environ m) x1 = ((out, e), x2) ->
  LocalHostname' m =
    ((TrimSpace out, e),
     {| environ := environ m;
        spawned := spawned m ++
                   [(os_Getenv "SGE_ROOT" m +:+ "/util/arch", []);
                    (os_Getenv "SGE_ROOT" m +:+ "/utilbin/" +:+
                     TrimSpace arch +:+ "/gethostname", ["-name"])];
        outside := x2 |}).
Proof.
  intros H1 H2. unfold LocalHostname, Arch, exec_Output.
  rewrite H1. simpl. unfold os_Getenv in *. simpl.
  rewrite H2, <- app_assoc. reflexivity.
Qed.

Lemma LocalHostname_machine m :
  environ (LocalHostname' m).2 = environ m /\
  exists rest,
    spawned (LocalHostname' m).2 =
      spawned m ++ (os_Getenv "SGE_ROOT" m +:+ "/util/arch", []) :: rest /\
    (rest = [] \/
     exists arch,
       rest = [(os_Getenv "SGE_ROOT" m +:+ "/utilbin/" +:+ arch +:+
                "/gethostname", ["-name"])]).
Proof.
  destruct (command_run (os_Getenv "SGE_ROOT" m +:+ "/util/arch") []
              (environ m) (outside m)) as [[arch [e |]] x1] eqn:H1.
  - rewrite (LocalHostname_arch_failure_aux _ _ _ _ H1). simpl.
    split; [done |]. exists []. eauto.
  - destruct (command_run
                (os_Getenv "SGE_ROOT" m +:+ "/utilbin/" +:+ TrimSpace arch +:+
                 "/gethostname") ["-name"] (environ m) x1)
      as [[out e] x2] eqn:H2.
    rewrite (LocalHostname_success_aux _ _ _ _ _ _ H1 H2). simpl.
    split; [done |]. eexists. split; [done |]. right. by eexists.
Qed.

(** X13. With [SGE_ROOT] not set, the paths are made from the empty
    string: [Arch] runs [/util/arch], and [LocalHostname] runs
    [/util/arch] and then, at most, [gethostname] under [/utilbin]. *)
Theorem helpers_without_SGE_ROOT m :
  environ m !! "SGE_ROOT" = None ->
  spawned (Arch TrimSpace command_run m).2 =
    spawned m ++ [("/util/arch", [])] /\
  exists rest,
    spawned (LocalHostname TrimSpace command_run m).2 =
      spawned m ++ ("/util/arch", []) :: rest /\
    (rest = [] \/
     exists arch,
       rest = [("/utilbin/" +:+ arch +:+ "/gethostname", ["-name"])]).
Proof.
  intros H.
  assert (os_Getenv "SGE_ROOT" m = "") as Hg.
  { unfold os_Getenv. by rewrite H. }
  destruct (Arch_machine m) as [_ Ha].
  destruct (LocalHostname_machine m) as [_ Hl].
  rewrite Hg in Ha, Hl. done.
Qed.

(** *** The example program *)

Lemma simple_engine :
  engine_of (simple_heap TrimSpace command_run kernel_hostname)
    [simple_producer'] {| sensors := simple_sensors |}.
Proof.
  exists simple_sensors. unfold Create, simple_heap, slice_elems.
  rewrite lookup_singleton_eq. done.
Qed.

Lemma main_Run stdin m :
  main' stdin m =
  Run (simple_heap TrimSpace command_run kernel_hostname)
    {| sensors := simple_sensors |} stdin
    {| stdout := []; stderr := []; env := m |}.
Proof.
  unfold main. destruct simple_engine as (s & Hc & _).
  apply Create_engine in Hc as Hc'. destruct Hc' as [[= <-] _].
  by rewrite Hc.
Qed.

Lemma Run_status (h : heap (machine X)) ps ctx stdin p :
  engine_of h ps ctx ->
  (Forall is_trigger stdin /\ (Run h ctx stdin p).2 = Reading) \/
  (stops_at_quit stdin /\ (Run h ctx stdin p).2 = Exited 0) \/
  (stops_at_error stdin /\ (Run h ctx stdin p).2 = Exited 1).
Proof.
  intros He. destruct (stdin_cases stdin) as [H | [H | H]].
  - left. split; [done |]. by rewrite (Run_triggers _ _ _ _ _ He H).
  - right; left. split; [done |].
    destruct H as (pre & r & post & -> & Ht & Hr & Hq).
    by rewrite (Run_stop_clean _ _ _ _ _ _ _ He Ht Hr Hq).
  - right; right. split; [done |].
    destruct H as (pre & r & post & -> & Ht & Hr).
    by rewrite (Run_stop_error _ _ _ _ _ _ _ He Ht Hr).
Qed.

(** X14. In the example program [Create] cannot fail: whatever the
    machine and the input, [main] is [Run] on the engine of its one
    sensor. So it never prints an error of [Create] and never panics; it
    exits with status 1 only when reading fails, with status 0 only on
    [quit], and is otherwise waiting for input. *)
Theorem main_is_Run stdin m :
  main' stdin m =
    Run (simple_heap TrimSpace command_run kernel_hostname)
      {| sensors := simple_sensors |} stdin
      {| stdout := []; stderr := []; env := m |} /\
  ((main' stdin m).2 = Exited 1 -> stops_at_error stdin) /\
  ((main' stdin m).2 = Exited 0 -> stops_at_quit stdin) /\
  ((main' stdin m).2 = Reading -> Forall is_trigger stdin) /\
  (main' stdin m).2 <> Panicked.
Proof.
  rewrite main_Run. split; [done |].
  destruct (Run_status _ _ _ stdin {| stdout := []; stderr := []; env := m |}
              simple_engine) as [[H ->] | [[H ->] | [H ->]]];
    split_and!; done.
Qed.

Lemma simple_cycle_spawns p :
  exists cmds,
    spawned (env (one_cycle [simple_producer'] p)) =
      spawned (env p) ++ cmds /\
    1 <= length cmds <= 2.
Proof.
  unfold one_cycle, pass, produce. cbn [hostIdentity simple_producer].
  destruct (LocalHostname_machine (env p)) as (_ & rest & Hs & Hrest).
  destruct (LocalHostname' (env p)) as [[host [e |]] m1]; simpl in *.
  - eexists. split; [exact Hs |].
    destruct Hrest as [-> | [arch ->]]; simpl; lia.
  - destruct (kernel_hostname (outside m1)) as [k [e |]]; simpl;
      (eexists; split; [exact Hs |];
       destruct Hrest as [-> | [arch ->]]; simpl; lia).
Qed.

Lemma simple_cycles_spawn n p :
  exists cmds,
    spawned (env (Nat.iter n (one_cycle [simple_producer']) p)) =
      spawned (env p) ++ cmds /\
    n <= length cmds <= 2 * n.
Proof.
  induction n as [| n (cmds & IH & Hn)]; simpl.
  - exists []. by rewrite app_nil_r.
  - destruct (simple_cycle_spawns
                (Nat.iter n (one_cycle [simple_producer']) p))
      as (more & Hm & Hl).
    exists (cmds ++ more). rewrite Hm, IH, length_app.
    split; [by rewrite app_assoc | lia].
Qed.

(** X15. The example program asks for at least one and at most two
    commands for every trigger line: after [n] trigger lines it has asked
    for the commands it had before and between [n] and [2 * n] more. *)
Theorem main_spawns stdin m :
  Forall is_trigger stdin ->
  exists cmds,
    spawned (env (main' stdin m).1) = spawned m ++ cmds /\
    length stdin <= length cmds <= 2 * length stdin.
Proof.
  intros Ht. rewrite main_Run, (Run_triggers _ _ _ _ _ simple_engine Ht).
  apply (simple_cycles_spawn (length stdin)
           {| stdout := []; stderr := []; env := m |}).
Qed.

(** X16. On a machine where both commands and the kernel answer, the
    example program answers its first trigger line with one block of one
    line: the host name [gethostname] printed, blanks trimmed, the word
    [name], and the host name of the kernel. *)
Theorem main_first_cycle r stdin m arch x1 out x2 k :
  is_trigger r ->
  command_run (os_Getenv "SGE_ROOT" m +:+ "/util/arch") []
    (environ m) (outside m) = ((arch, None), x1) ->
  command_run
    (os_Getenv "SGE_ROOT" m +:+ "/utilbin/" +:+ TrimSpace arch +:+
     "/gethostname") ["-name"] (environ m) x1 = ((out, None), x2) ->
  kernel_hostname x2 = (k, None) ->
  main' (r :: stdin) m =
    Run (simple_heap TrimSpace command_run kernel_hostname)
      {| sensors := simple_sensors |} stdin
      {| stdout := ["begin" +:+ LF;
                    TrimSpace out +:+ ":" +:+ "name" +:+ ":" +:+ k +:+ LF;
                    "end" +:+ LF];
         stderr := [];
         env := {| environ := environ m;
                   spawned :=
                     spawned m ++
                     [(os_Getenv "SGE_ROOT" m +:+ "/util/arch", []);
                      (os_Getenv "SGE_ROOT" m +:+ "/utilbin/" +:+
                       TrimSpace arch +:+ "/gethostname", ["-name"])];
                   outside := x2 |} |}.
Proof.
  intros Hr H1 H2 Hk.
  rewrite main_Run, (Run_trigger _ _ _ _ _ _ simple_engine Hr).
  f_equal. unfold one_cycle, pass, produce.
  cbn [hostIdentity resourceIdentity measurementValue simple_producer env].
  rewrite (LocalHostname_success_aux _ _ _ _ _ _ H1 H2). simpl.
  by rewrite Hk.
Qed.

End Helpers.

(** ** The small installation and the small machine at work *)

Lemma Create_first_missing_witness :
  Create broken_heap example_slice =
    (None, Some "ResourceNameFunction is not set").
Proof.
  refine (proj1 (proj2 (Create_first_missing broken_heap example_slice
                          [Sensor_of producerA] unset_sensor
                          [Sensor_of producerC] _ _)) _ _).
  - reflexivity.
  - repeat constructor; eexists; reflexivity.
  - eexists; reflexivity.
  - reflexivity.
Defined.

Lemma Run_resumes_witness :
  Run example_heap example_ctx ([poll ""; poll "quit"] ++ [poll "late"])
    start =
  Run example_heap example_ctx [poll ""; poll "quit"] start.
Proof.
  refine (proj2 (Run_resumes example_heap example_ctx [poll ""; poll "quit"]
                   [poll "late"] start) _).
  vm_compute. discriminate.
Defined.

Lemma every_producer_accounted_witness :
  length (stdout (Run example_heap example_ctx [poll ""; poll "x"] start).1) +
  length (stderr (Run example_heap example_ctx [poll ""; poll "x"] start).1) =
  0 + 0 + 2 * (2 + 3).
Proof.
  apply (every_producer_accounted example_heap example_producers example_ctx
           [poll ""; poll "x"] start).
  - engine_of_example example_slice.
  - all_triggers.
Defined.

Lemma stderr_holds_diagnostics_witness :
  stderr (Run example_heap example_ctx [poll ""; poll "x"] start).1 =
    concat (err_lines <$> passes example_producers 2 tt) /\
  Forall is_diagnostic (concat (err_lines <$> passes example_producers 2 tt)).
Proof.
  apply (stderr_holds_diagnostics example_heap example_producers example_ctx
           [poll ""; poll "x"] start).
  - engine_of_example example_slice.
  - all_triggers.
Defined.

Lemma empty_engine_witness :
  Run example_heap {| sensors := {| base := 1%positive; off := 0; len := 0 |} |}
    [poll ""; poll "a"] start =
    ({| stdout := written ["begin"; "end"; "begin"; "end"];
        stderr := [];
        env := tt |}, Reading).
Proof.
  refine (proj2 (empty_engine example_heap
                   {| base := 1%positive; off := 0; len := 0 |}
                   [poll ""; poll "a"] start _ _)).
  - reflexivity.
  - all_triggers.
Defined.

Lemma nil_function_panics_witness :
  Run unset_heap example_ctx [poll ""; poll "x"] start =
    ({| stdout := written ["begin"; "hostA:mem:42"];
        stderr := [];
        env := tt |}, Panicked).
Proof.
  refine (proj1 (nil_function_panics unset_heap example_ctx [producerA]
                   empty_sensor [Sensor_of producerC] (poll "") [poll "x"]
                   start [Reported "hostA" "mem" "42"] tt tt _ _ _ _)).
  - reflexivity.
  - reflexivity.
  - apply hits_nil_host. reflexivity.
  - all_triggers.
Defined.

Lemma unreached_nil_is_harmless_witness :
  report half_sensor start =
    Normal tt {| stdout := [];
                 stderr := [diagnostic ResourceName "unknown"];
                 env := tt |}.
Proof.
  refine (proj2 (unreached_nil_is_harmless half_sensor start)
            (always "hostE") "hostE" tt (failing "unknown") "" "unknown" tt
            _ _ _ _); reflexivity.
Defined.

Lemma validation_is_not_repeated_witness :
  exists p' ls,
    Run unset_heap example_ctx [poll ""] start = (p', Panicked) /\
    stdout p' = stdout start ++ ("begin" +:+ LF) :: ls /\
    Forall measurement_line ls.
Proof.
  apply (validation_is_not_repeated example_heap example_slice example_ctx 1
           empty_sensor unset_heap (poll "") [] start).
  - reflexivity.
  - reflexivity.
  - vm_compute. lia.
  - reflexivity.
  - all_triggers.
Defined.

Lemma LocalHostname_arch_failure_witness :
  LocalHostname demo_trim demo_run bare_machine =
    (("", Some "no such file or directory"),
     {| environ := ∅; spawned := [("/util/arch", [])]; outside := tt |}).
Proof.
  apply (LocalHostname_arch_failure demo_trim demo_run bare_machine "").
  reflexivity.
Defined.

Lemma LocalHostname_runs_gethostname_witness :
  LocalHostname demo_trim demo_run demo_machine =
    (("node1", None),
     {| environ := environ demo_machine;
        spawned := [("/opt/sge/util/arch", []);
                    ("/opt/sge/utilbin/lx-amd64/gethostname", ["-name"])];
        outside := tt |}).
Proof.
  apply (LocalHostname_runs_gethostname demo_trim demo_run demo_machine
           ("lx-amd64" +:+ LF) tt ("node1" +:+ LF) None tt).
  - reflexivity.
  - reflexivity.
Defined.

Lemma helpers_without_SGE_ROOT_witness :
  spawned (Arch demo_trim demo_run bare_machine).2 = [("/util/arch", [])].
Proof.
  apply (helpers_without_SGE_ROOT demo_trim demo_run bare_machine).
  reflexivity.
Defined.

Lemma main_spawns_witness :
  exists cmds,
    spawned (env (main demo_trim demo_run demo_kernel [poll ""; poll "x"]
                    demo_machine).1) = [] ++ cmds /\
    2 <= length cmds <= 2 * 2.
Proof.
  apply (main_spawns demo_trim demo_run demo_kernel [poll ""; poll "x"]
           demo_machine).
  all_triggers.
Defined.

Lemma main_first_cycle_witness :
  main demo_trim demo_run demo_kernel [poll ""; poll "quit"] demo_machine =
    ({| stdout := written ["begin"; "node1:name:node1.local"; "end"];
        stderr := [];
        env := {| environ := environ demo_machine;
                  spawned :=
                    [("/opt/sge/util/arch", []);
                     ("/opt/sge/utilbin/lx-amd64/gethostname", ["-name"])];
                  outside := tt |} |}, Exited 0).
Proof.
  apply (main_first_cycle demo_trim demo_run demo_kernel (poll "")
           [poll "quit"] demo_machine ("lx-amd64" +:+ LF) tt
           ("node1" +:+ LF) tt "node1.local").
  - all_triggers.
  - reflexivity.
  - reflexivity.
  - reflexivity.
Defined.

Lemma bytes_of_cycles_framed_witness :
  split_lines
    (bytes (stdout (Run example_heap healthy_ctx [poll ""] start).1)) =
    ["begin"; "hostA:mem:42"; "hostC:swap:7"; "end"].
Proof.
  destruct (bytes_of_cycles_framed example_heap healthy_producers healthy_ctx
              [poll ""] start) as (Ho & Hb & _).
  - engine_of_example healthy_slice.
  - repeat constructor; discriminate.
  - all_triggers.
  - rewrite Ho. exact Hb.
Defined.

(** ** Lines longer than the reader's buffer *)

(** C8. The content of a trigger line is not always ignored: [Run] takes
    each result of [ReadLine] for a line, whether or not it is only the
    beginning of one. With the reader that [Run] makes, the one line made
    of 4096 times [x] and then [y] is answered with two blocks where the
    line [a] is answered with one, and the one line made of 4096 times
    [x] and then [quit], which is not the line [quit], makes the process
    exit with status 0. *)
Theorem over_long_line_is_several_lines :
  split_lines ("a" +:+ LF) = ["a"] /\
  split_lines (repeat_byte 4096 "x" +:+ "y" +:+ LF) =
    [repeat_byte 4096 "x" +:+ "y"] /\
  split_lines (repeat_byte 4096 "x" +:+ "quit" +:+ LF) =
    [repeat_byte 4096 "x" +:+ "quit"] /\
  repeat_byte 4096 "x" +:+ "quit" <> "quit" /\
  Run example_heap healthy_ctx
    (stdin_results defaultBufSize ("a" +:+ LF)) start =
    ({| stdout := written ["begin"; "hostA:mem:42"; "hostC:swap:7"; "end"];
        stderr := [];
        env := tt |}, Exited 1) /\
  Run example_heap healthy_ctx
    (stdin_results defaultBufSize (repeat_byte 4096 "x" +:+ "y" +:+ LF))
    start =
    ({| stdout := written ["begin"; "hostA:mem:42"; "hostC:swap:7"; "end";
                           "begin"; "hostA:mem:42"; "hostC:swap:7"; "end"];
        stderr := [];
        env := tt |}, Exited 1) /\
  Run example_heap healthy_ctx
    (stdin_results defaultBufSize (repeat_byte 4096 "x" +:+ "quit" +:+ LF))
    start =
    ({| stdout := written ["begin"; "hostA:mem:42"; "hostC:swap:7"; "end"];
        stderr := [];
        env := tt |}, Exited 0).
Proof.
  split_and!; try (vm_compute; reflexivity).
  intros H. apply (f_equal String.length) in H. vm_compute in H.
  discriminate H.
Qed.

Section Reader.

Context {W : Type}.

Implicit Types (h : heap W) (ctx : Context) (p : process W).

Lemma string_length_app (a b : string) :
  String.length (a +:+ b) = String.length a + String.length b.
Proof.
  induction a as [| x a IH]; [done |].
  change (S (String.length (a +:+ b)) = S (String.length a + String.length b)).
  by rewrite IH.
Qed.

Lemma cut_line_short size (l rest : string) :
  short_line size l ->
  cut_line size (l +:+ LF +:+ rest) = Some (l, rest).
Proof.
  intros [Hl Hs]. revert size Hs.
  induction l as [| x l IH]; intros size Hs.
  - destruct size as [| size]; [simpl in Hs; lia |].
    change (cut_line (S size) (String "010"%char rest) = Some ("", rest)).
    simpl. by destruct (decide ("010"%char = "010"%char)).
  - destruct Hl as [Hx Hl]. destruct size as [| size]; [simpl in Hs; lia |].
    change (cut_line (S size) (String x (l +:+ LF +:+ rest)) =
            Some (String x l, rest)).
    simpl. destruct (decide (x = "010"%char)); [done |].
    rewrite IH; [done | done | simpl in Hs; lia].
Qed.

Lemma ReadLine_short size (l rest : string) :
  short_line size l ->
  ReadLine size (l +:+ LF +:+ rest) = (line_result l, rest).
Proof.
  intros Hl. unfold ReadLine. rewrite (cut_line_short _ _ _ Hl).
  by destruct l.
Qed.

Lemma ReadLines_short fuel size (ls : list string) :
  length ls < fuel -> Forall (short_line size) ls ->
  ReadLines fuel size (bytes (written ls)) = (line_result <$> ls) ++ [eof].
Proof.
  intros Hf Hs. revert fuel Hf.
  induction Hs as [| l ls Hl _ IH]; intros fuel Hf.
  - destruct fuel as [| fuel]; [simpl in Hf; lia | done].
  - destruct fuel as [| fuel]; [simpl in Hf; lia |].
    change (bytes (written (l :: ls)))
      with ((l +:+ LF) +:+ bytes (written ls)).
    rewrite string_app_assoc. cbn [ReadLines].
    rewrite (ReadLine_short _ _ _ Hl). cbn [err line_result].
    rewrite IH; [done | simpl in Hf; lia].
Qed.

Lemma bytes_written_length (ls : list string) :
  length ls <= String.length (bytes (written ls)).
Proof.
  induction ls as [| l ls IH]; [done |].
  change (bytes (written (l :: ls)))
    with ((l +:+ LF) +:+ bytes (written ls)).
  rewrite !string_length_app. simpl. lia.
Qed.

Lemma stdin_results_short size (ls : list string) :
  Forall (short_line size) ls ->
  stdin_results size (bytes (written ls)) = (line_result <$> ls) ++ [eof].
Proof.
  intros Hs. unfold stdin_results. apply ReadLines_short; [| done].
  pose proof (bytes_written_length ls). lia.
Qed.

(** X20. As long as every line of the input fits the reader's buffer, a
    stream of lines is read one result per line, then the end of the
    stream; and two such streams of as many lines, which differ only in
    the content of lines other than [quit], give the same run. *)
Theorem short_lines_content_ignored size h ctx (ls1 ls2 : list string) p :
  Forall2 (same_but_short_trigger_content size) ls1 ls2 ->
  stdin_results size (bytes (written ls1)) = (line_result <$> ls1) ++ [eof] /\
  stdin_results size (bytes (written ls2)) = (line_result <$> ls2) ++ [eof] /\
  Run h ctx (stdin_results size (bytes (written ls1))) p =
  Run h ctx (stdin_results size (bytes (written ls2))) p.
Proof.
  intros H.
  assert (Forall (short_line size) ls1 /\
          Forall (short_line size) ls2) as [H1 H2].
  { induction H as [| l1 l2 ls1 ls2 (? & ? & ?) _ [? ?]];
      split; by constructor. }
  rewrite (stdin_results_short _ _ H1), (stdin_results_short _ _ H2).
  split_and!; [done | done |].
  apply Run_same_but_trigger_content.
  apply Forall2_app; [| by constructor; [left | constructor]].
  apply Forall2_fmap.
  eapply Forall2_impl; [exact H |].
  intros l1 l2 (_ & _ & [-> | [Hq1 Hq2]]); [by left | right].
  by split; split.
Qed.

End Reader.

Lemma short_lines_content_ignored_witness :
  Run example_heap example_ctx
    (stdin_results defaultBufSize (bytes (written [""; "load"; "quit"])))
    start =
  Run example_heap example_ctx
    (stdin_results defaultBufSize (bytes (written ["poll"; " quit "; "quit"])))
    start.
Proof.
  refine (proj2 (proj2 (short_lines_content_ignored defaultBufSize
                          example_heap example_ctx
                          [""; "load"; "quit"] ["poll"; " quit "; "quit"]
                          start _))).
  assert (forall l, newline_free l -> String.length l < 10 ->
                    short_line defaultBufSize l) as Hs.
  { intros l Hn Hl. split; [exact Hn |]. unfold defaultBufSize. lia. }
  constructor; [| constructor; [| constructor; [| constructor]]].
  - split; [| split]; [apply Hs | apply Hs |];
      [simpl; tauto | simpl; lia | repeat split; discriminate | simpl; lia |].
    right. split; discriminate.
  - split; [| split]; [apply Hs | apply Hs |];
      [repeat split; discriminate | simpl; lia
      | repeat split; discriminate | simpl; lia |].
    right. split; discriminate.
  - split; [| split]; [apply Hs | apply Hs |];
      [repeat split; discriminate | simpl; lia
      | repeat split; discriminate | simpl; lia |].
    by left.
Defined.
